(** * Dropheus backend: the search relay of [aliutils.js] and [index.js]

    A shallow embedding of the cached, credential-rotating AliExpress search
    ([searchAliExpress] and its helpers) and of the [/search] route that
    calls it, followed by the properties the specification states about
    them.

    Conventions of the embedding:
    - a value obtained from [JSON.parse] is a [Json]; a JavaScript value that
      may also be [undefined] is an [option Json], [None] being [undefined];
    - JavaScript numbers are carried as integers: the code performs no
      arithmetic on them, it only tests their truthiness and interpolates
      them into strings;
    - strings are byte strings, and [trim] strips the ASCII white space;
    - the two network endpoints and the file system are the [World]: a fixed
      description of what every outbound request is answered with; the
      contents of the cache file and the log of the requests actually sent
      are the state [St] threaded through the computation. *)

From stdpp Require Import gmap strings list fin_maps pretty.
From Stdlib Require Import ZArith Ascii String.

Open Scope Z_scope.

(** ** JavaScript values *)

#[warnings="-register-all"]
Inductive Json : Type :=
  | JNull
  | JBool (b : bool)
  | JNum (n : Z)
  | JStr (s : string)
  | JArr (xs : list Json)
  | JObj (fields : list (string * Json)).

Inductive ErrorName : Type := Error_ | TypeError_ | SyntaxError_.

(** An [Error] object: what is thrown and what a rejected promise carries. *)
Record JsError : Type := mkError { name : ErrorName; message : string }.

(** The outcome of an expression that may throw (or of an awaited promise). *)
Inductive Outcome (A : Type) : Type :=
  | Ok (a : A)
  | Rejected (e : JsError).
Arguments Ok {A} a.
Arguments Rejected {A} e.

#[global] Instance outcome_ret : MRet Outcome := fun _ a => Ok a.
#[global] Instance outcome_bind : MBind Outcome := fun _ _ f m =>
  match m with Ok a => f a | Rejected e => Rejected e end.

Definition str_truthy (s : string) : bool := negb (String.eqb s "").

(** [!!v] for a parsed value. *)
Definition truthy (v : Json) : bool :=
  match v with
  | JNull => false
  | JBool b => b
  | JNum n => negb (n =? 0)
  | JStr s => str_truthy s
  | JArr _ | JObj _ => true
  end.

(** [!!v] for a value that may be [undefined]. *)
Definition truthy_opt (v : option Json) : bool :=
  match v with Some j => truthy j | None => false end.

(** Own property of an object literal; parsed objects have distinct keys. *)
Fixpoint own (k : string) (fs : list (string * Json)) : option Json :=
  match fs with
  | [] => None
  | (k', v) :: rest => if String.eqb k k' then Some v else own k rest
  end.

(** [v.k] on a value that is not [null], for the property names the program
    reads ([error], [result], [item], [title], ...): none of them is
    inherited from a prototype, so only objects have them. *)
Definition prop (k : string) (v : Json) : option Json :=
  match v with JObj fs => own k fs | _ => None end.

(** [v?.k]: short-circuits to [undefined] on [undefined] and [null]. *)
Definition opt_chain (k : string) (v : option Json) : option Json :=
  match v with
  | None | Some JNull => None
  | Some o => prop k o
  end.

(** [v?.[0]]: arrays and strings are indexed, objects are looked up. *)
Definition opt_index0 (v : option Json) : option Json :=
  match v with
  | None | Some JNull => None
  | Some (JArr xs) => head xs
  | Some (JStr (String c _)) => Some (JStr (String c ""))
  | Some (JObj fs) => own "0" fs
  | Some _ => None
  end.

Definition cannot_convert : JsError :=
  mkError TypeError_ "Cannot convert object to primitive value".

(** String conversion as performed by a template literal [`${v}`]. A parsed
    object carrying its own (hence non-callable) [toString] cannot be
    converted. *)
Fixpoint to_string (v : Json) : Outcome string :=
  match v with
  | JNull => Ok "null"%string
  | JBool true => Ok "true"%string
  | JBool false => Ok "false"%string
  | JNum n => Ok (pretty n)
  | JStr s => Ok s
  | JArr xs =>
      (fix join (l : list Json) : Outcome string :=
         match l with
         | [] => Ok ""%string
         | x :: rest =>
             let elem := match x with JNull => Ok ""%string | _ => to_string x end in
             match rest with
             | [] => elem
             | _ => a ← elem; b ← join rest; Ok (a +:+ "," +:+ b)
             end
         end) xs
  | JObj fs =>
      match own "toString" fs with
      | Some _ => Rejected cannot_convert
      | None => Ok "[object Object]"%string
      end
  end.

(** A JavaScript number as the request layer can produce it. *)
Inductive JsNumber : Type := NaN | Int (z : Z).

(** A primitive that is a number or a string (the [page] option). *)
Inductive Scalar : Type := SNum (n : JsNumber) | SStr (s : string).

Definition number_to_string (n : JsNumber) : string :=
  match n with NaN => "NaN" | Int z => pretty z end.

Definition scalar_to_string (v : Scalar) : string :=
  match v with SNum n => number_to_string n | SStr s => s end.

Definition scalar_truthy (v : Scalar) : bool :=
  match v with
  | SNum NaN => false
  | SNum (Int z) => negb (z =? 0)
  | SStr s => str_truthy s
  end.

(** [a || b] *)
Definition js_or (a b : Scalar) : Scalar := if scalar_truthy a then a else b.

(** ** String built-ins *)

Definition is_space (c : ascii) : bool :=
  let n := nat_of_ascii c in
  ((9 <=? n) && (n <=? 13))%nat || (n =? 32)%nat.

Fixpoint trim_start (s : string) : string :=
  match s with
  | String c rest => if is_space c then trim_start rest else s
  | EmptyString => EmptyString
  end.

Fixpoint trim_end (s : string) : string :=
  match s with
  | String c rest =>
      match trim_end rest with
      | EmptyString => if is_space c then EmptyString else String c EmptyString
      | r => String c r
      end
  | EmptyString => EmptyString
  end.

(** [s.trim()] *)
Definition trim (s : string) : string := trim_end (trim_start s).

(** [s.split(sep)] for a one-character separator: never the empty list. *)
Fixpoint split (sep : ascii) (s : string) : list string :=
  match s with
  | EmptyString => [EmptyString]
  | String c rest =>
      if Ascii.eqb c sep then EmptyString :: split sep rest
      else match split sep rest with
           | piece :: more => String c piece :: more
           | [] => [String c EmptyString]
           end
  end.

Definition digit_value (c : ascii) : option Z :=
  let n := Z.of_nat (nat_of_ascii c) in
  if (48 <=? n) && (n <=? 57) then Some (n - 48)
  else if (97 <=? n) && (n <=? 122) then Some (n - 87)
  else if (65 <=? n) && (n <=? 90) then Some (n - 55)
  else None.

(** The longest prefix of digits of the radix, folded into a number. *)
Fixpoint digits (radix : Z) (acc : option Z) (s : string) : option Z :=
  match s with
  | EmptyString => acc
  | String c rest =>
      match digit_value c with
      | Some d =>
          if d <? radix then digits radix (Some (radix * default 0 acc + d)) rest
          else acc
      | None => acc
      end
  end.

(** [parseInt(s)] with no radix argument: leading white space, a sign, a
    [0x] prefix, then digits; [NaN] when there is no digit. Exact below
    2^53. *)
Definition parseInt (s : string) : JsNumber :=
  let s1 := trim_start s in
  let '(sign, s2) :=
    match s1 with
    | String "-" r => (-1, r)
    | String "+" r => (1, r)
    | _ => (1, s1)
    end in
  let '(radix, s3) :=
    match s2 with
    | String "0" (String "x" r) | String "0" (String "X" r) => (16, r)
    | _ => (10, s2)
    end in
  match digits radix None s3 with
  | Some n => Int (sign * n)
  | None => NaN
  end.

(** ** The outside world and the state *)

(** The POST sent to the chat-completion endpoint. *)
Record AiRequest : Type :=
  { authorization : string; model : string; content : string }.

Record AiResponse : Type := { ai_status : Z; ai_json : Outcome Json }.

(** The GET sent to the product search endpoint: the three query parameters
    of the URL and the [x-rapidapi-key] header. *)
Record SearchRequest : Type :=
  { param_q : string; param_page : string; param_sort : string; api_key : Json }.

(** What the program can observe of a search response: [response.status],
    [await response.text()] and [await response.json()]. *)
Record SearchResponse : Type :=
  { status : Z; text : Outcome string; json : Outcome Json }.

(** [response.ok] *)
Definition ok (st : Z) : bool := (200 <=? st) && (st <=? 299).

Record World : Type :=
  { HACKCLUB_API_KEY : option string;
    RAPIDAPI_KEY : option string;
    ai_endpoint : AiRequest -> Outcome AiResponse;
    search_endpoint : SearchRequest -> Outcome SearchResponse;
    (** whether [fs.writeFileSync] on the cache file succeeds *)
    disk_writable : bool }.

(** The cache file [api-cache.json]: absent, present but unreadable or not
    JSON, or holding the object that [saveCache] serialised. The file is
    written by [saveCache] alone, so a readable file holds an object. *)
Inductive CacheFile : Type :=
  | Missing
  | Unreadable
  | Stored (c : gmap string Json).

Inductive Event : Type :=
  | AiCall (r : AiRequest)
  | SearchCall (r : SearchRequest).

Record St : Type := mkSt { file : CacheFile; sent : list Event }.

(** Computations over the state that may throw. *)
Definition M (A : Type) : Type := St -> Outcome A * St.

#[global] Instance M_ret : MRet M := fun _ a st => (Ok a, st).
#[global] Instance M_bind : MBind M := fun _ _ f m st =>
  match m st with
  | (Ok a, st') => f a st'
  | (Rejected e, st') => (Rejected e, st')
  end.

Definition throw {A : Type} (e : JsError) : M A := fun st => (Rejected e, st).

(** [await fetch(...)]: the request is logged and answered by the world. *)
Definition fetch_ai (w : World) (r : AiRequest) : M (Outcome AiResponse) :=
  fun st => (Ok (ai_endpoint w r), mkSt (file st) (sent st ++ [AiCall r])).

Definition fetch_search (w : World) (r : SearchRequest) : M (Outcome SearchResponse) :=
  fun st => (Ok (search_endpoint w r), mkSt (file st) (sent st ++ [SearchCall r])).

(** ** The cache store *)

(** The mapping a cache file yields: its object, or [{}]. *)
Definition cache_of (f : CacheFile) : gmap string Json :=
  match f with
  | Stored c => c
  | Missing | Unreadable => ∅
  end.

(** [loadCache()]: a missing file, and a read or parse error (caught and
    logged), both give the empty object. *)
Definition loadCache : M (gmap string Json) := fun st => (Ok (cache_of (file st)), st).

(** [saveCache(cache)]: the whole mapping replaces the file; a failing write
    is caught and logged, and the file stays as it was. *)
Definition saveCache (w : World) (cache : gmap string Json) : M unit := fun st =>
  if disk_writable w then (Ok tt, mkSt (Stored cache) (sent st))
  else (Ok tt, st).

(** [`${q}|${page}|${sort}`] *)
Definition getCacheKey (q : string) (page : Scalar) (sort : string) : string :=
  q +:+ "|" +:+ scalar_to_string page +:+ "|" +:+ sort.

(** ** The query optimizer *)

(** The text of the single user message. *)
Definition ai_prompt (query : string) : string :=
  "You are a search query optimizer for AliExpress. Given a user's search query, generate a better, more concise search term that would yield better results on AliExpress. Make sure the search is short/general enough to actually yield responses. Return ONLY the optimized search query, nothing else. No explanations, no quotes, just the search term.

User's search query: " +:+ query.

(** The POST of the optimizer: bearer header, model, one user message. *)
Definition ai_request (hackclubApiKey query : string) : AiRequest :=
  {| authorization := "Bearer " +:+ hackclubApiKey;
     model := "qwen/qwen3-32b";
     content := ai_prompt query |}.

(** [data.choices?.[0]?.message?.content?.trim()] *)
Definition first_choice (data : Json) : Outcome (option string) :=
  match data with
  | JNull =>
      Rejected (mkError TypeError_ "Cannot read properties of null (reading 'choices')")
  | _ =>
      match opt_chain "content" (opt_chain "message" (opt_index0 (prop "choices" data))) with
      | None | Some JNull => Ok None
      | Some (JStr s) => Ok (Some (trim s))
      | Some _ =>
          Rejected (mkError TypeError_
            "data.choices?.[0]?.message?.content?.trim is not a function")
      end
  end.

(** The body of the [try] block, once the fetch has settled. *)
Definition optimized_or_throw (query : string) (r : Outcome AiResponse) : Outcome string :=
  response ← r;
  if negb (ok (ai_status response)) then
    Rejected (mkError Error_ ("HackClub AI request failed: " +:+ pretty (ai_status response)))
  else
    data ← ai_json response;
    optimizedQuery ← first_choice data;
    match optimizedQuery with
    | Some s => if str_truthy s then Ok s else Ok query
    | None => Ok query
    end.

(** [optimizeSearchQuery(query)]: without a credential the query comes back
    as it is; otherwise one request is sent, and whatever goes wrong in the
    [try] block is caught and answered with the original query. *)
Definition optimizeSearchQuery (w : World) (query : string) : M string :=
  match HACKCLUB_API_KEY w with
  | Some hackclubApiKey =>
      if negb (str_truthy hackclubApiKey) then mret query
      else
        r ← fetch_ai w (ai_request hackclubApiKey query);
        match optimized_or_throw query r with
        | Ok s => mret s
        | Rejected _ => mret query
        end
  | None => mret query
  end.

(** ** Result projection *)

Record ResultItem : Type :=
  { title : option Json; price : option Json; image : option Json; url : option Json }.

(** [v ? `https:${v}` : v] *)
Definition with_scheme (v : option Json) : Outcome (option Json) :=
  match v with
  | Some j =>
      if truthy j then s ← to_string j; Ok (Some (JStr ("https:" +:+ s)))
      else Ok v
  | None => Ok None
  end.

(** The callback of [.map]; [item.item] throws on a [null] entry. *)
Definition project (item : Json) : Outcome ResultItem :=
  match item with
  | JNull =>
      Rejected (mkError TypeError_ "Cannot read properties of null (reading 'item')")
  | _ =>
      let inner := prop "item" item in
      image ← with_scheme (opt_chain "image" inner);
      url ← with_scheme (opt_chain "itemUrl" inner);
      Ok {| title := opt_chain "title" inner;
            price := opt_chain "promotionPrice"
                       (opt_chain "def" (opt_chain "sku" inner));
            image := image;
            url := url |}
  end.

Fixpoint map_outcome {A B : Type} (f : A -> Outcome B) (l : list A) : Outcome (list B) :=
  match l with
  | [] => Ok []
  | x :: rest => y ← f x; ys ← map_outcome f rest; Ok (y :: ys)
  end.

(** [data.result?.resultList?.slice(0, 3).map(...) || []] for a [data] that
    is not [null]. *)
Definition extract_results (data : Json) : Outcome (list ResultItem) :=
  match opt_chain "resultList" (prop "result" data) with
  | None | Some JNull => Ok []
  | Some (JArr xs) => map_outcome project (take 3 xs)
  | Some (JStr _) =>
      Rejected (mkError TypeError_
        "data.result?.resultList?.slice(...).map is not a function")
  | Some _ =>
      Rejected (mkError TypeError_
        "data.result?.resultList?.slice is not a function")
  end.

(** What [JSON.stringify] keeps of a result: [undefined] fields are dropped. *)
Definition field (k : string) (v : option Json) : list (string * Json) :=
  match v with Some j => [(k, j)] | None => [] end.

Definition item_json (r : ResultItem) : Json :=
  JObj (field "title" (title r) ++ field "price" (price r)
        ++ field "image" (image r) ++ field "url" (url r)).

Definition results_json (rs : list ResultItem) : Json := JArr (item_json <$> rs).

(** Reading a parsed value back as a result list. *)
Definition as_ResultItem (v : Json) : ResultItem :=
  {| title := prop "title" v; price := prop "price" v;
     image := prop "image" v; url := prop "url" v |}.

Definition as_ResultList (v : Json) : option (list ResultItem) :=
  match v with JArr xs => Some (as_ResultItem <$> xs) | _ => None end.

(** ** The search executor *)

(** How one iteration of the credential loop ends: the early [continue] on
    status 403, the [catch] clause, or the [return]. *)
Inductive Attempt : Type :=
  | Forbidden
  | Threw (e : JsError)
  | Succeeded (results : list ResultItem).

(** The part of the [try] block that follows the 403 test. *)
Definition read_response (response : SearchResponse) : Outcome (list ResultItem) :=
  if negb (ok (status response)) then
    errorText ← text response;
    Rejected (mkError Error_
      ("HTTP error! status: " +:+ pretty (status response) +:+ ", body: " +:+ errorText))
  else
    data ← json response;
    match data with
    | JNull =>
        Rejected (mkError TypeError_ "Cannot read properties of null (reading 'error')")
    | _ =>
        match prop "error" data with
        | Some err =>
            if truthy err then
              s ← to_string err; Rejected (mkError Error_ ("API Error: " +:+ s))
            else extract_results data
        | None => extract_results data
        end
    end.

Definition attempt (r : Outcome SearchResponse) : Attempt :=
  match r with
  | Rejected e => Threw e
  | Ok response =>
      if status response =? 403 then Forbidden
      else match read_response response with
           | Ok results => Succeeded results
           | Rejected e => Threw e
           end
  end.

Definition forbidden_error (i : nat) : JsError :=
  mkError Error_ ("API key " +:+ pretty (Z.of_nat (i + 1)) +:+ " returned 403 Forbidden").

Definition exhausted_error (n : nat) (lastError : JsError) : JsError :=
  mkError Error_ ("Failed to search AliExpress with all " +:+ pretty (Z.of_nat n)
                  +:+ " API key(s). Last error: " +:+ message lastError).

Definition null_message : JsError :=
  mkError TypeError_ "Cannot read properties of null (reading 'message')".

(** What [searchAliExpress] resolves to: the array it has just built, or
    the value found in the cache file. The two differ only in that a built
    item owns its [undefined] fields, which serialisation drops. *)
Inductive Returned : Type :=
  | Fresh (results : list ResultItem)
  | FromCache (v : Json).

(** The [for] loop from index [i] on, [keys] being [apiKeys.slice(i)] and
    [n] being [apiKeys.length], followed by the final [throw]. *)
Fixpoint try_keys (w : World) (request : Json -> SearchRequest)
    (cacheKey : string) (cache : gmap string Json)
    (n i : nat) (keys : list Json) (lastError : option JsError) : M Returned :=
  match keys with
  | currentKey :: rest =>
      r ← fetch_search w (request currentKey);
      match attempt r with
      | Forbidden =>
          try_keys w request cacheKey cache n (S i) rest (Some (forbidden_error i))
      | Threw error =>
          try_keys w request cacheKey cache n (S i) rest (Some error)
      | Succeeded results =>
          _ ← saveCache w (<[cacheKey := results_json results]> cache);
          mret (Fresh results)
      end
  | [] =>
      match lastError with
      | Some e => throw (exhausted_error n e)
      | None => throw null_message
      end
  end.

Record Options : Type :=
  { q : option string;
    page : option Scalar;
    sort : option string;
    rapidApiKey : option Json }.

(** The three-way normalisation of the configured credential. *)
Definition api_keys (rapidApiKey : Json) : list Json :=
  match rapidApiKey with
  | JArr xs => xs
  | JStr s => (fun key => JStr (trim key)) <$> split "," s
  | other => [other]
  end.

Definition query_required : JsError :=
  mkError Error_ "Search query (q) is required".

Definition key_required : JsError :=
  mkError Error_ "RapidAPI key is required. Set RAPIDAPI_KEY in .env file".

(** The destructuring defaults of the options. *)
Definition page_of (options : Options) : Scalar := default (SNum (Int 1)) (page options).

Definition sort_of (options : Options) : string := default "default"%string (sort options).

Definition key_of (w : World) (options : Options) : option Json :=
  match rapidApiKey options with
  | Some k => Some k
  | None => JStr <$> RAPIDAPI_KEY w
  end.

(** The URL with its three parameters, and the key header. *)
Definition search_request (optimizedQuery : string) (page : Scalar) (sort : string)
    (currentKey : Json) : SearchRequest :=
  {| param_q := optimizedQuery;
     param_page := scalar_to_string page;
     param_sort := sort;
     api_key := currentKey |}.

(** [searchAliExpress(options)]. The cache key always contains a [|], so the
    lookup [cache[cacheKey]] never meets an inherited property: it is the
    lookup in the mapping. On a success [cache[cacheKey] = results] is
    followed at once by [saveCache(cache)], which serialises the results. *)
Definition searchAliExpress (w : World) (options : Options) : M Returned :=
  let page := page_of options in
  let sort := sort_of options in
  let rapidApiKey := key_of w options in
  match q options with
  | None => throw query_required
  | Some q =>
      if negb (str_truthy q) then throw query_required
      else
        let cacheKey := getCacheKey q page sort in
        cache ← loadCache;
        let on_miss : M Returned :=
          optimizedQuery ← optimizeSearchQuery w q;
          match rapidApiKey with
          | None => throw key_required
          | Some key =>
              if negb (truthy key) then throw key_required
              else
                let apiKeys := api_keys key in
                let request := search_request optimizedQuery page sort in
                try_keys w request cacheKey cache (List.length apiKeys) 0 apiKeys None
          end in
        match cache !! cacheKey with
        | Some cached => if truthy cached then mret (FromCache cached) else on_miss
        | None => on_miss
        end
  end.

(** ** The request handler *)

(** [req.query], each parameter a string or absent. *)
Record Query : Type :=
  { query_q : option string; query_page : option string; query_sort : option string }.

Record HttpResponse : Type := { http_status : Z; http_body : Json }.

(** [page ? parseInt(page) : 1 || 'default'] as JavaScript parses it: the
    conditional operator binds weaker than [||]. *)
Definition page_argument (page : option string) : Scalar :=
  match page with
  | Some p =>
      if str_truthy p then SNum (parseInt p)
      else js_or (SNum (Int 1)) (SStr "default")
  | None => js_or (SNum (Int 1)) (SStr "default")
  end.

(** [sort || 'default'] *)
Definition sort_argument (sort : option string) : string :=
  match sort with
  | Some s => if str_truthy s then s else "default"%string
  | None => "default"%string
  end.

(** What [res.json] sends for a returned value. *)
Definition wire (r : Returned) : Json :=
  match r with Fresh results => results_json results | FromCache v => v end.

Definition error_body (msg : string) : Json := JObj [("error"%string, JStr msg)].

(** A name between double quotes. *)
Definition quoted (s : string) : string :=
  String (ascii_of_nat 34) (s +:+ String (ascii_of_nat 34) EmptyString).

(** The options object the route builds for the pipeline. *)
Definition route_options (q : string) (query : Query) : Options :=
  {| q := Some q;
     page := Some (page_argument (query_page query));
     sort := Some (sort_argument (query_sort query));
     rapidApiKey := None |}.

(** The handler of [GET /search]: 400 without a query, the results as JSON
    on success, 500 with the error message on any failure. *)
Definition search_route (w : World) (query : Query) (st : St) : HttpResponse * St :=
  let bad_request :=
    ({| http_status := 400;
        http_body := error_body ("Search query parameter " +:+ quoted "q"
                                 +:+ " is required") |}, st) in
  match query_q query with
  | None => bad_request
  | Some q =>
      if negb (str_truthy q) then bad_request
      else
        match searchAliExpress w (route_options q query) st with
        | (Ok results, st') => ({| http_status := 200; http_body := wire results |}, st')
        | (Rejected error, st') =>
            ({| http_status := 500; http_body := error_body (message error) |}, st')
        end
  end.

(** ** Vocabulary of the statements *)

(** The entry a lookup [cache[key]] accepts as a hit: present and truthy. *)
Definition hit (cache : gmap string Json) (key : string) : option Json :=
  match cache !! key with
  | Some v => if truthy v then Some v else None
  | None => None
  end.

(** The cache key of a request. *)
Definition key_for (options : Options) (q : string) : string :=
  getCacheKey q (page_of options) (sort_of options).

(** The requests the optimizer sends in a world, and the query it returns. *)
Definition optimizer_calls (w : World) (query : string) : list Event :=
  match HACKCLUB_API_KEY w with
  | Some k => if str_truthy k then [AiCall (ai_request k query)] else []
  | None => []
  end.

Definition optimized (w : World) (query : string) : string :=
  match HACKCLUB_API_KEY w with
  | Some k =>
      if str_truthy k then
        match optimized_or_throw query (ai_endpoint w (ai_request k query)) with
        | Ok s => s
        | Rejected _ => query
        end
      else query
  | None => query
  end.

(** The search requests of a log, in the order they were sent. *)
Definition search_calls (log : list Event) : list SearchRequest :=
  omap (fun ev => match ev with SearchCall r => Some r | AiCall _ => None end) log.

Definition ai_calls (log : list Event) : list AiRequest :=
  omap (fun ev => match ev with AiCall r => Some r | SearchCall _ => None end) log.

(** The error an attempt leaves in [lastError]. *)
Definition recorded (i : nat) (a : Attempt) : option JsError :=
  match a with
  | Forbidden => Some (forbidden_error i)
  | Threw e => Some e
  | Succeeded _ => None
  end.

(** The options with the credential given explicitly. *)
Definition with_key (options : Options) (rapidApiKey : Json) : Options :=
  {| q := q options; page := page options; sort := sort options;
     rapidApiKey := Some rapidApiKey |}.


(** An attempt that does not return. *)
Definition failed (a : Attempt) : bool :=
  match a with Succeeded _ => false | Forbidden | Threw _ => true end.

(** [lastError] after the loop has gone through [keys] from index [i]
    without returning. *)
Fixpoint last_recorded (w : World) (request : Json -> SearchRequest)
    (i : nat) (keys : list Json) (lastError : option JsError) : option JsError :=
  match keys with
  | [] => lastError
  | k :: rest =>
      last_recorded w request (S i) rest
        (recorded i (attempt (search_endpoint w (request k))))
  end.

(** The state after a successful attempt has stored its results. *)
Definition stored (w : World) (key : string) (results : list ResultItem)
    (cache : gmap string Json) (st : St) : St :=
  if disk_writable w then mkSt (Stored (<[key := results_json results]> cache)) (sent st)
  else st.

(** The state after some more requests were sent. *)
Definition logged (st : St) (events : list Event) : St :=
  mkSt (file st) (sent st ++ events).

(** What runs on a miss: the optimizer, the credential test, the loop. *)
Definition after_miss (w : World) (o : Options) (query : string) (st : St)
    : Outcome Returned * St :=
  let st' := logged st (optimizer_calls w query) in
  match key_of w o with
  | None => (Rejected key_required, st')
  | Some key =>
      if truthy key then
        try_keys w (search_request (optimized w query) (page_of o) (sort_of o))
          (key_for o query) (cache_of (file st))
          (List.length (api_keys key)) 0 (api_keys key) None st'
      else (Rejected key_required, st')
  end.

(** A string that is empty or begins with a character that is no space. *)
Definition no_leading_space (s : string) : Prop :=
  match s with String c _ => is_space c = false | EmptyString => True end.

(** How often a character occurs in a string. *)
Fixpoint occurrences (c : ascii) (s : string) : nat :=
  match s with
  | EmptyString => 0%nat
  | String c' rest => ((if Ascii.eqb c' c then 1 else 0) + occurrences c rest)%nat
  end.

(** Whether every character of a string satisfies a test. *)
Fixpoint all_chars (test : ascii -> bool) (s : string) : bool :=
  match s with
  | EmptyString => true
  | String c rest => test c && all_chars test rest
  end.

(** A decimal digit or the minus sign. *)
Definition numeric (c : ascii) : bool :=
  let n := nat_of_ascii c in ((48 <=? n) && (n <=? 57))%nat || (n =? 45)%nat.

(** ** The earlier versions of the search *)

(** The projection before the scheme was added: the four fields as they
    come. *)
Definition project_plain (item : Json) : Outcome ResultItem :=
  match item with
  | JNull =>
      Rejected (mkError TypeError_ "Cannot read properties of null (reading 'item')")
  | _ =>
      let inner := prop "item" item in
      Ok {| title := opt_chain "title" inner;
            price := opt_chain "promotionPrice"
                       (opt_chain "def" (opt_chain "sku" inner));
            image := opt_chain "image" inner;
            url := opt_chain "itemUrl" inner |}
  end.

Definition extract_results_plain (data : Json) : Outcome (list ResultItem) :=
  match opt_chain "resultList" (prop "result" data) with
  | None | Some JNull => Ok []
  | Some (JArr xs) => map_outcome project_plain (take 3 xs)
  | Some (JStr _) =>
      Rejected (mkError TypeError_
        "data.result?.resultList?.slice(...).map is not a function")
  | Some _ =>
      Rejected (mkError TypeError_
        "data.result?.resultList?.slice is not a function")
  end.

(** From the [response.ok] test to the results, as in both earlier
    versions. *)
Definition read_response_plain (response : SearchResponse) : Outcome (list ResultItem) :=
  if negb (ok (status response)) then
    errorText ← text response;
    Rejected (mkError Error_
      ("HTTP error! status: " +:+ pretty (status response) +:+ ", body: " +:+ errorText))
  else
    data ← json response;
    match data with
    | JNull =>
        Rejected (mkError TypeError_ "Cannot read properties of null (reading 'error')")
    | _ =>
        match prop "error" data with
        | Some err =>
            if truthy err then
              s ← to_string err; Rejected (mkError Error_ ("API Error: " +:+ s))
            else extract_results_plain data
        | None => extract_results_plain data
        end
    end.

(** [src/aliutils.js]: one credential, no cache, no optimizer; whatever the
    [try] block throws is wrapped once. *)
Module Single.

Definition wrapped (error : JsError) : JsError :=
  mkError Error_ ("Failed to search AliExpress: " +:+ message error).

Definition searchAliExpress (w : World) (options : Options) : M (list ResultItem) :=
  let page := page_of options in
  let sort := sort_of options in
  let rapidApiKey := key_of w options in
  match q options with
  | None => throw query_required
  | Some q =>
      if negb (str_truthy q) then throw query_required
      else
        match rapidApiKey with
        | None => throw key_required
        | Some key =>
            if negb (truthy key) then throw key_required
            else
              r ← fetch_search w (search_request q page sort key);
              match r ≫= read_response_plain with
              | Ok results => mret results
              | Rejected error => throw (wrapped error)
              end
        end
  end.

End Single.

(** The version with credential rotation, before the cache and the
    optimizer were added. *)
Module Rotating.

Definition attempt (r : Outcome SearchResponse) : Attempt :=
  match r with
  | Rejected e => Threw e
  | Ok response =>
      if status response =? 403 then Forbidden
      else match read_response_plain response with
           | Ok results => Succeeded results
           | Rejected e => Threw e
           end
  end.

Fixpoint try_keys (w : World) (request : Json -> SearchRequest)
    (n i : nat) (keys : list Json) (lastError : option JsError) : M (list ResultItem) :=
  match keys with
  | currentKey :: rest =>
      r ← fetch_search w (request currentKey);
      match attempt r with
      | Forbidden => try_keys w request n (S i) rest (Some (forbidden_error i))
      | Threw error => try_keys w request n (S i) rest (Some error)
      | Succeeded results => mret results
      end
  | [] =>
      match lastError with
      | Some e => throw (exhausted_error n e)
      | None => throw null_message
      end
  end.

Definition searchAliExpress (w : World) (options : Options) : M (list ResultItem) :=
  let page := page_of options in
  let sort := sort_of options in
  let rapidApiKey := key_of w options in
  match q options with
  | None => throw query_required
  | Some q =>
      if negb (str_truthy q) then throw query_required
      else
        match rapidApiKey with
        | None => throw key_required
        | Some key =>
            if negb (truthy key) then throw key_required
            else
              let apiKeys := api_keys key in
              try_keys w (search_request q page sort) (List.length apiKeys) 0 apiKeys None
        end
  end.

End Rotating.

(** ** Sample inputs *)

Definition schemed_entry : Json :=
  JObj [("item", JObj [("title", JStr "Lamp");
                       ("image", JStr "https://ae01.alicdn.com/kf/lamp.jpg");
                       ("itemUrl", JStr "//www.aliexpress.com/item/1.html")])]%string.

Definition entry (title_ image_ : string) (price_ : Z) : Json :=
  JObj [("item", JObj [("title", JStr title_);
                       ("sku", JObj [("def", JObj [("promotionPrice", JNum price_)])]);
                       ("image", JStr image_)])]%string.

(** A search body with four entries, the last one beyond the cut. *)
Definition lamp_body : Json :=
  JObj [("result",
         JObj [("resultList",
                JArr [entry "Desk lamp" "//ae01.alicdn.com/kf/a.jpg" 12;
                      entry "Floor lamp" "//ae01.alicdn.com/kf/b.jpg" 30;
                      entry "Wall lamp" "//ae01.alicdn.com/kf/c.jpg" 18;
                      entry "Night lamp" "//ae01.alicdn.com/kf/d.jpg" 7])])]%string.

Definition lamp_item (title_ image_ : string) (price_ : Z) : ResultItem :=
  {| title := Some (JStr title_); price := Some (JNum price_);
     image := Some (JStr image_); url := None |}.

Definition lamp_results : list ResultItem :=
  [lamp_item "Desk lamp" "https://ae01.alicdn.com/kf/a.jpg" 12;
   lamp_item "Floor lamp" "https://ae01.alicdn.com/kf/b.jpg" 30;
   lamp_item "Wall lamp" "https://ae01.alicdn.com/kf/c.jpg" 18].

Definition responds (st : Z) (body : Json) : Outcome SearchResponse :=
  Ok {| status := st; text := Ok ""%string; json := Ok body |}.

Definition forbidden_response : Outcome SearchResponse :=
  Ok {| status := 403; text := Ok "Forbidden"%string;
        json := Rejected (mkError SyntaxError_ "Unexpected token F in JSON") |}.

(** An upstream on which only the credential [good] is accepted; it answers
    [body] to it. *)
Definition gated (body : Json) (req : SearchRequest) : Outcome SearchResponse :=
  match api_key req with
  | JStr key => if String.eqb key "good" then responds 200 body else forbidden_response
  | _ => forbidden_response
  end.

(** A chat-completion answer proposing the rewritten query [term]. *)
Definition proposes (term : string) (_ : AiRequest) : Outcome AiResponse :=
  Ok {| ai_status := 200;
        ai_json := Ok (JObj [("choices",
                     JArr [JObj [("message", JObj [("content", JStr term)])]])])%string |}.

Definition lamp_world (ai_key search_key : option string) (term : string)
    (body : Json) (writable : bool) : World :=
  {| HACKCLUB_API_KEY := ai_key;
     RAPIDAPI_KEY := search_key;
     ai_endpoint := proposes term;
     search_endpoint := gated body;
     disk_writable := writable |}.

Definition lamp_options : Options :=
  {| q := Some "a nice lamp for my desk"%string; page := None; sort := None;
     rapidApiKey := None |}.

Definition fresh_state : St := mkSt Missing [].

Definition lamp_query : Query :=
  {| query_q := Some "lamp"%string; query_page := None; query_sort := None |}.

Definition second_page_query : Query :=
  {| query_q := Some "lamp"%string; query_page := Some "2"%string; query_sort := None |}.

(** An upstream that accepts no credential: [down] cannot be reached, [over]
    is throttled, [err] gets a body with an error field, any other is
    forbidden. *)
Definition refusing (req : SearchRequest) : Outcome SearchResponse :=
  match api_key req with
  | JStr key =>
      if String.eqb key "down" then Rejected (mkError TypeError_ "fetch failed")
      else if String.eqb key "over" then
        Ok {| status := 429; text := Ok "Too many requests"%string;
              json := Rejected (mkError SyntaxError_ "Unexpected token T in JSON") |}
      else if String.eqb key "err" then
        responds 200 (JObj [("error", JStr "quota")])%string
      else forbidden_response
  | _ => forbidden_response
  end.

Definition refusing_world : World :=
  {| HACKCLUB_API_KEY := None;
     RAPIDAPI_KEY := Some "bad, down,over,err"%string;
     ai_endpoint := proposes "lamp";
     search_endpoint := refusing;
     disk_writable := true |}.

(** A success body whose result list is an object, not an array. *)
Definition odd_body : Json :=
  JObj [("result", JObj [("resultList", JObj [])])]%string.

(** A success body with neither an error nor a result. *)
Definition bare_body : Json := JObj [("message", JStr "ok")]%string.

(** No optimizer and no search credential in the environment. *)
Definition bare_world : World := lamp_world None None " lamp " lamp_body true.

(** Both credentials configured; the optimizer proposes [" lamp "]. *)
Definition lamp_shop : World := lamp_world (Some "hk") (Some "good") " lamp " lamp_body true.

(** The same shop behind an optimizer that proposes another term. *)
Definition light_shop : World :=
  lamp_world (Some "hk") (Some "good") "desk light" lamp_body true.

(** The same shop on a disk that refuses writes. *)
Definition readonly_shop : World :=
  lamp_world (Some "hk") (Some "good") " lamp " lamp_body false.

(** An optimizer credential but no search credential. *)
Definition keyless_shop : World := lamp_world (Some "hk") None " lamp " lamp_body true.

(** No optimizer credential; two search credentials, one of them good. *)
Definition plain_shop : World := lamp_world None (Some "bad,good") " lamp " lamp_body true.

Definition bare_shop : World :=
  lamp_world (Some "hk") (Some "good,spare") " lamp " bare_body true.

Definition odd_shop : World := lamp_world None (Some "good") " lamp " odd_body true.

(** The body with which the optimizer of [lamp_shop] is answered. *)
Definition lamp_answer : Json :=
  JObj [("choices", JArr [JObj [("message", JObj [("content", JStr " lamp ")])]])]%string.

(** The shop answering the bare body, behind two refused credentials. *)
Definition bare_rotation_shop : World :=
  lamp_world (Some "hk") (Some "bad, worse,good,spare") " lamp " bare_body true.

(** * Properties *)

(** ** The definitions on small inputs *)

Example api_keys_of_list_in_env :
  api_keys (JStr "k1, k2 ,k3") = [JStr "k1"; JStr "k2"; JStr "k3"]%string.
Proof. reflexivity. Qed.

Example api_keys_of_single_key : api_keys (JStr "k1") = [JStr "k1"].
Proof. reflexivity. Qed.

Example api_keys_of_array :
  api_keys (JArr [JStr " k1"; JStr "k2"]) = [JStr " k1"; JStr "k2"]%string.
Proof. reflexivity. Qed.

Example getCacheKey_sample :
  getCacheKey "usb c cable" (SNum (Int 2)) "orders" = "usb c cable|2|orders"%string.
Proof. reflexivity. Qed.

Example parseInt_samples :
  parseInt " 42px" = Int 42 ∧ parseInt "-7" = Int (-7) ∧ parseInt "0x1f" = Int 31
  ∧ parseInt "page" = NaN ∧ parseInt "" = NaN.
Proof. repeat split; reflexivity. Qed.

Example to_string_samples :
  to_string (JArr [JNum 1; JNull; JArr [JStr "a"; JStr "b"]; JObj []])
  = Ok "1,,a,b,[object Object]"%string
  ∧ to_string (JObj [("toString"%string, JNum 1)]) = Rejected cannot_convert.
Proof. split; reflexivity. Qed.

(** Four upstream entries give three results, in upstream order. *)
Example extract_results_lamp_body : extract_results lamp_body = Ok lamp_results.
Proof. reflexivity. Qed.

Example route_without_query :
  search_route lamp_shop {| query_q := None; query_page := None; query_sort := None |}
    fresh_state
  = ({| http_status := 400;
        http_body := error_body ("Search query parameter " +:+ quoted "q" +:+ " is required") |},
     fresh_state).
Proof. reflexivity. Qed.

Lemma split_not_nil (sep : ascii) (s : string) : split sep s ≠ [].
Proof.
  destruct s as [|c s]; simpl; [done|].
  destruct (Ascii.eqb c sep); [done|]. by destruct (split sep s).
Qed.

(** A credential given as a string never normalises to the empty list. *)
Lemma api_keys_string_not_nil (s : string) : api_keys (JStr s) ≠ [].
Proof.
  simpl. pose proof (split_not_nil "," s) as H. by destruct (split "," s).
Qed.

Lemma map_outcome_length {A B : Type} (f : A -> Outcome B) (l : list A) (l' : list B) :
  map_outcome f l = Ok l' -> List.length l' = List.length l.
Proof.
  revert l'. induction l as [|x l IH]; intros l' H; simpl in H.
  - by injection H as <-.
  - destruct (f x); [|discriminate]. simpl in H.
    destruct (map_outcome f l) as [ys|]; [|discriminate]. simpl in H.
    injection H as <-. simpl. by rewrite (IH ys).
Qed.

(** The projection keeps at most three entries. *)
Lemma extract_results_at_most_three (data : Json) (rs : list ResultItem) :
  extract_results data = Ok rs -> (List.length rs <= 3)%nat.
Proof.
  unfold extract_results.
  destruct (opt_chain "resultList" (prop "result" data)) as [[| | | |xs|]|];
    intros H; try discriminate; try (injection H as <-; simpl; lia).
  apply map_outcome_length in H. rewrite H, length_take. lia.
Qed.

(** ** Running the pieces *)

Lemma str_truthy_true (s : string) : str_truthy s = true <-> s ≠ ""%string.
Proof.
  unfold str_truthy. destruct (String.eqb_spec s ""); simpl; split; intros; congruence.
Qed.

Lemma logged_nil (st : St) : logged st [] = st.
Proof. destruct st; unfold logged; simpl. by rewrite app_nil_r. Qed.

Lemma logged_app (st : St) (l1 l2 : list Event) :
  logged (logged st l1) l2 = logged st (l1 ++ l2).
Proof. unfold logged; simpl. by rewrite app_assoc. Qed.

(** The optimizer never throws; it answers [optimized] and sends
    [optimizer_calls]. *)
Lemma optimizeSearchQuery_run (w : World) (query : string) (st : St) :
  optimizeSearchQuery w query st
  = (Ok (optimized w query), logged st (optimizer_calls w query)).
Proof.
  unfold optimizeSearchQuery, optimized, optimizer_calls.
  destruct (HACKCLUB_API_KEY w) as [k|]; simpl.
  - destruct (str_truthy k); simpl.
    + unfold mbind, M_bind, fetch_ai; simpl.
      destruct (optimized_or_throw query (ai_endpoint w (ai_request k query))); reflexivity.
    + unfold mret, M_ret. by rewrite logged_nil.
  - unfold mret, M_ret. by rewrite logged_nil.
Qed.

Lemma hit_lookup (cache : gmap string Json) (key : string) (v : Json) :
  hit cache key = Some v <-> cache !! key = Some v ∧ truthy v = true.
Proof.
  unfold hit. destruct (cache !! key) as [v'|]; [destruct (truthy v') eqn:E|].
  - split; [intros [= <-]; by split | by intros [? _]].
  - split; [discriminate | intros [[= <-] ?]; congruence].
  - split; [discriminate | by intros [? _]].
Qed.

(** A hit returns the stored value and leaves the state alone. *)
Lemma searchAliExpress_hit (w : World) (o : Options) (query : string) (v : Json) (st : St) :
  q o = Some query -> query ≠ ""%string ->
  hit (cache_of (file st)) (key_for o query) = Some v ->
  searchAliExpress w o st = (Ok (FromCache v), st).
Proof.
  intros Hq Hne [Hl Ht]%hit_lookup. unfold searchAliExpress. rewrite Hq.
  apply str_truthy_true in Hne. rewrite Hne. simpl.
  unfold mbind, M_bind, loadCache. fold (key_for o query). rewrite Hl, Ht. reflexivity.
Qed.

Lemma searchAliExpress_miss (w : World) (o : Options) (query : string) (st : St) :
  q o = Some query -> query ≠ ""%string ->
  hit (cache_of (file st)) (key_for o query) = None ->
  searchAliExpress w o st = after_miss w o query st.
Proof.
  intros Hq Hne Hmiss. unfold searchAliExpress, after_miss. rewrite Hq.
  apply str_truthy_true in Hne. rewrite Hne. simpl.
  unfold mbind at 1, M_bind at 1, loadCache. fold (key_for o query).
  unfold hit in Hmiss.
  assert (Hrun : forall k : string -> M Returned,
            (optimizeSearchQuery w query ≫= k) st
            = k (optimized w query) (logged st (optimizer_calls w query))).
  { intros k. unfold mbind, M_bind. by rewrite optimizeSearchQuery_run. }
  destruct (cache_of (file st) !! key_for o query) as [v|] eqn:El.
  - destruct (truthy v); [discriminate|]. rewrite Hrun.
    destruct (key_of w o) as [key|]; [|reflexivity].
    destruct (truthy key); reflexivity.
  - rewrite Hrun.
    destruct (key_of w o) as [key|]; [|reflexivity].
    destruct (truthy key); reflexivity.
Qed.

(** ** The credential loop *)

Section Loop.
Variables (w : World) (request : Json -> SearchRequest).
Variables (cacheKey : string) (cache : gmap string Json) (n : nat).

Let loop := try_keys w request cacheKey cache n.
Let call (k : Json) : Event := SearchCall (request k).

(** One iteration, spelled out. *)
Lemma try_keys_cons (i : nat) (k : Json) (rest : list Json)
    (lastError : option JsError) (st : St) :
  loop i (k :: rest) lastError st
  = match attempt (search_endpoint w (request k)) with
    | Succeeded results =>
        (Ok (Fresh results), stored w cacheKey results cache (logged st [call k]))
    | a => loop (S i) rest (recorded i a) (logged st [call k])
    end.
Proof.
  unfold loop, call; simpl. unfold mbind, M_bind, fetch_search; simpl.
  destruct (attempt (search_endpoint w (request k))); try reflexivity.
  unfold saveCache, stored, mret, M_ret. by destruct (disk_writable w).
Qed.

(** Failing credentials are gone through in order; each is sent one
    request and overwrites [lastError]. *)
Lemma try_keys_failing (failing rest : list Json) :
  Forall (fun k => failed (attempt (search_endpoint w (request k))) = true) failing ->
  forall (i : nat) (lastError : option JsError) (st : St),
    loop i (failing ++ rest) lastError st
    = loop (i + List.length failing) rest
        (last_recorded w request i failing lastError)
        (logged st (call <$> failing)).
Proof.
  induction 1 as [|k failing Hk _ IH]; intros i lastError st.
  - simpl. by rewrite Nat.add_0_r, logged_nil.
  - change ((k :: failing) ++ rest) with (k :: (failing ++ rest)).
    rewrite try_keys_cons.
    destruct (attempt (search_endpoint w (request k))) eqn:Ea; try discriminate.
    + rewrite IH, logged_app. simpl. rewrite Ea. f_equal. lia.
    + rewrite IH, logged_app. simpl. rewrite Ea. f_equal. lia.
Qed.

(** After at least one failing credential, [lastError] is what the last
    one recorded. *)
Lemma last_recorded_snoc (i : nat) (keys : list Json) (k : Json)
    (lastError : option JsError) :
  last_recorded w request i (keys ++ [k]) lastError
  = recorded (i + List.length keys) (attempt (search_endpoint w (request k))).
Proof.
  revert i lastError. induction keys as [|k' keys IH]; intros i lastError; simpl.
  - by rewrite Nat.add_0_r.
  - rewrite IH. f_equal. lia.
Qed.

(** The loop returns only through a successful attempt, after a run of
    failing ones. *)
Lemma try_keys_returns (keys : list Json) :
  forall (i : nat) (lastError : option JsError) (st st' : St) (r : Returned),
    loop i keys lastError st = (Ok r, st') ->
    exists failing k rest results,
      keys = failing ++ k :: rest
      ∧ Forall (fun k => failed (attempt (search_endpoint w (request k))) = true) failing
      ∧ attempt (search_endpoint w (request k)) = Succeeded results
      ∧ r = Fresh results
      ∧ st' = stored w cacheKey results cache (logged st (call <$> (failing ++ [k]))).
Proof.
  induction keys as [|k keys IH]; intros i lastError st st' r Hrun.
  - unfold loop in Hrun; simpl in Hrun. destruct lastError; discriminate.
  - rewrite try_keys_cons in Hrun.
    destruct (attempt (search_endpoint w (request k))) eqn:Ea.
    + apply IH in Hrun as (failing & k' & rest & results & -> & Hf & Hk & -> & ->).
      exists (k :: failing), k', rest, results. repeat split; try done.
      * constructor; [by rewrite Ea | done].
      * by rewrite logged_app.
    + apply IH in Hrun as (failing & k' & rest & results & -> & Hf & Hk & -> & ->).
      exists (k :: failing), k', rest, results. repeat split; try done.
      * constructor; [by rewrite Ea | done].
      * by rewrite logged_app.
    + injection Hrun as <- <-.
      exists [], k, keys, results. repeat split; try done.
Qed.

(** Whatever the outcome, the loop only sends search requests, one per
    credential of a prefix of the list. *)
Lemma try_keys_log (keys : list Json) :
  forall (i : nat) (lastError : option JsError) (st : St),
    exists used,
      used `prefix_of` keys
      ∧ sent (loop i keys lastError st).2 = sent st ++ (call <$> used).
Proof.
  induction keys as [|k keys IH]; intros i lastError st.
  - exists []. split; [done|]. unfold loop; simpl.
    destruct lastError; simpl; by rewrite app_nil_r.
  - rewrite try_keys_cons.
    destruct (attempt (search_endpoint w (request k))) eqn:Ea.
    + destruct (IH (S i) (recorded i Forbidden) (logged st [call k])) as (used & Hp & ->).
      exists (k :: used). split; [by apply prefix_cons|].
      simpl. by rewrite <- app_assoc.
    + destruct (IH (S i) (recorded i (Threw e)) (logged st [call k])) as (used & Hp & ->).
      exists (k :: used). split; [by apply prefix_cons|].
      simpl. by rewrite <- app_assoc.
    + exists [k]. split; [apply prefix_cons, prefix_nil|].
      unfold stored. by destruct (disk_writable w).
Qed.
End Loop.

(** ** Result projection *)

Lemma with_scheme_string (s : string) :
  s ≠ ""%string -> with_scheme (Some (JStr s)) = Ok (Some (JStr ("https:" +:+ s))).
Proof. intros Hs%str_truthy_true. unfold with_scheme; simpl. by rewrite Hs. Qed.

Lemma with_scheme_text (v : option Json) :
  (v = None ∨ exists s, v = Some (JStr s)) ->
  exists v', with_scheme v = Ok v'
    ∧ (forall s, v = Some (JStr s) -> s ≠ ""%string -> v' = Some (JStr ("https:" +:+ s)))
    ∧ (v = None -> v' = None).
Proof.
  intros [-> | [s ->]].
  - exists None. by repeat split.
  - unfold with_scheme; simpl. destruct (str_truthy s) eqn:Es; simpl.
    + eexists. split; [reflexivity|]. split; [by intros ? [= <-] _ | done].
    + eexists. split; [reflexivity|]. split; [|done].
      intros ? [= <-] Hne%str_truthy_true. congruence.
Qed.

(** C1 (as amended). For every upstream entry that is not [null] and whose
    [image] and [itemUrl] are each a string or absent, the projection
    returns an item in which a non-empty string field is the upstream
    string prefixed with [https:]; hence a field beginning with [//] begins
    with [https://] afterwards, and a field that already carries a scheme is
    prefixed all the same. An absent field stays absent. *)
Theorem project_prefixes_scheme (entry : Json) :
  entry ≠ JNull ->
  let upstream_image := opt_chain "image" (prop "item" entry) in
  let upstream_url := opt_chain "itemUrl" (prop "item" entry) in
  (upstream_image = None ∨ exists s, upstream_image = Some (JStr s)) ->
  (upstream_url = None ∨ exists s, upstream_url = Some (JStr s)) ->
  exists r, project entry = Ok r
    ∧ (forall s, upstream_image = Some (JStr s) -> s ≠ ""%string ->
         image r = Some (JStr ("https:" +:+ s)))
    ∧ (forall s, upstream_url = Some (JStr s) -> s ≠ ""%string ->
         url r = Some (JStr ("https:" +:+ s)))
    ∧ (forall rest, upstream_image = Some (JStr ("//" +:+ rest)) ->
         image r = Some (JStr ("https://" +:+ rest)))
    ∧ (forall rest, upstream_url = Some (JStr ("//" +:+ rest)) ->
         url r = Some (JStr ("https://" +:+ rest)))
    ∧ (upstream_image = None -> image r = None)
    ∧ (upstream_url = None -> url r = None).
Proof.
  intros Hnn upstream_image upstream_url Hi Hu.
  destruct (with_scheme_text _ Hi) as (i' & Ei & Hi1 & Hi2).
  destruct (with_scheme_text _ Hu) as (u' & Eu & Hu1 & Hu2).
  assert (Hp : project entry
               = Ok {| title := opt_chain "title" (prop "item" entry);
                       price := opt_chain "promotionPrice"
                                  (opt_chain "def" (opt_chain "sku" (prop "item" entry)));
                       image := i'; url := u' |}).
  { unfold project. fold upstream_image upstream_url. rewrite Ei, Eu.
    by destruct entry. }
  eexists. split; [exact Hp|]. simpl.
  repeat split; try done.
  - intros rest H. by apply (Hi1 _ H).
  - intros rest H. by apply (Hu1 _ H).
Qed.

(** An upstream image that already starts with [https://] does not come out
    unchanged. *)
Lemma project_schemed_entry_changed :
  opt_chain "image" (prop "item" schemed_entry)
    = Some (JStr "https://ae01.alicdn.com/kf/lamp.jpg")
  ∧ exists r, project schemed_entry = Ok r
      ∧ image r = Some (JStr "https:https://ae01.alicdn.com/kf/lamp.jpg")
      ∧ image r ≠ opt_chain "image" (prop "item" schemed_entry).
Proof.
  split; [reflexivity|]. eexists. split; [reflexivity|]. simpl. split; [reflexivity|].
  discriminate.
Qed.

Lemma project_prefixes_scheme_witness :
  exists r, project schemed_entry = Ok r
    ∧ url r = Some (JStr "https://www.aliexpress.com/item/1.html").
Proof.
  destruct (project_prefixes_scheme schemed_entry) as (r & Hr & _ & _ & _ & Hu & _).
  - discriminate.
  - right. eexists. reflexivity.
  - right. eexists. reflexivity.
  - exists r. split; [exact Hr|]. apply (Hu "www.aliexpress.com/item/1.html"%string).
    reflexivity.
Defined.

(** ** The pipeline as a whole *)

(** The three ways through [searchAliExpress]. *)
Lemma searchAliExpress_cases (w : World) (o : Options) (st : St) :
  ((q o = None ∨ q o = Some ""%string)
   ∧ searchAliExpress w o st = (Rejected query_required, st))
  ∨ exists query, q o = Some query ∧ query ≠ ""%string
      ∧ ((exists v, hit (cache_of (file st)) (key_for o query) = Some v
            ∧ searchAliExpress w o st = (Ok (FromCache v), st))
         ∨ (hit (cache_of (file st)) (key_for o query) = None
            ∧ searchAliExpress w o st = after_miss w o query st)).
Proof.
  destruct (q o) as [query|] eqn:Hq.
  - destruct (String.eqb_spec query "") as [->|Hne].
    + left. split; [by right|]. unfold searchAliExpress. by rewrite Hq.
    + right. exists query. repeat split; try done.
      destruct (hit (cache_of (file st)) (key_for o query)) as [v|] eqn:Eh.
      * left. exists v. split; [done|]. by apply searchAliExpress_hit with query.
      * right. split; [done|]. by apply searchAliExpress_miss.
  - left. split; [by left|]. unfold searchAliExpress. by rewrite Hq.
Qed.

Lemma search_calls_app (l1 l2 : list Event) :
  search_calls (l1 ++ l2) = search_calls l1 ++ search_calls l2.
Proof. apply omap_app. Qed.

Lemma search_calls_optimizer (w : World) (query : string) :
  search_calls (optimizer_calls w query) = [].
Proof.
  unfold optimizer_calls. destruct (HACKCLUB_API_KEY w) as [k|]; [|done].
  by destruct (str_truthy k).
Qed.

Lemma search_calls_requests (request : Json -> SearchRequest) (keys : list Json) :
  search_calls ((fun k => SearchCall (request k)) <$> keys) = request <$> keys.
Proof.
  induction keys as [|k keys IH]; [done|].
  change (search_calls (SearchCall (request k) :: ((fun k => SearchCall (request k)) <$> keys))
          = request k :: (request <$> keys)).
  change (request k :: search_calls ((fun k => SearchCall (request k)) <$> keys)
          = request k :: (request <$> keys)).
  by rewrite IH.
Qed.

Lemma api_key_requests (oq : string) (p : Scalar) (s : string) (keys : list Json) :
  api_key <$> (search_request oq p s <$> keys) = keys.
Proof. induction keys as [|k keys IH]; [done|]. by rewrite !fmap_cons, IH. Qed.

Lemma file_stored_logged (w : World) (key : string) (rs : list ResultItem)
    (cache : gmap string Json) (st : St) (events : list Event) :
  file (stored w key rs cache (logged st events))
  = if disk_writable w then Stored (<[key := results_json rs]> cache) else file st.
Proof. unfold stored. by destruct (disk_writable w). Qed.

Lemma sent_stored (w : World) (key : string) (rs : list ResultItem)
    (cache : gmap string Json) (st : St) :
  sent (stored w key rs cache st) = sent st.
Proof. unfold stored. by destruct (disk_writable w). Qed.

(** C2. Let the configured credentials be [failing ++ k :: rest], every
    credential of [failing] being answered with status 403 whatever the
    request, and let a direct call configured with [k] alone return the
    freshly built results [rs]. Then the call with the whole list returns
    the same [rs] and leaves the same cache file, and the search requests it
    sends carry exactly the credentials [failing ++ [k]], in that order:
    none of [rest] is used. *)
Theorem rotation_matches_direct_call (w : World) (o : Options) (cfg cfg1 : Json)
    (failing rest : list Json) (k : Json) (rs : list ResultItem) (st st1 : St) :
  truthy cfg = true ->
  api_keys cfg = failing ++ k :: rest ->
  api_keys cfg1 = [k] ->
  Forall (fun k' => forall req, api_key req = k' ->
            exists resp, search_endpoint w req = Ok resp ∧ status resp = 403) failing ->
  searchAliExpress w (with_key o cfg1) st = (Ok (Fresh rs), st1) ->
  exists st2,
    searchAliExpress w (with_key o cfg) st = (Ok (Fresh rs), st2)
    ∧ file st2 = file st1
    ∧ api_key <$> search_calls (sent st2)
      = (api_key <$> search_calls (sent st)) ++ failing ++ [k]
    ∧ api_key <$> search_calls (sent st1)
      = (api_key <$> search_calls (sent st)) ++ [k].
Proof.
  intros Hcfg Hkeys Hkeys1 H403 Hdirect.
  destruct (searchAliExpress_cases w (with_key o cfg1) st)
    as [[_ E] | (query & Hq & Hne & [(v & _ & E) | (Hmiss & E)])];
    rewrite E in Hdirect; try discriminate.
  clear E. unfold after_miss in Hdirect. simpl in Hdirect.
  destruct (truthy cfg1); [|discriminate].
  rewrite Hkeys1 in Hdirect.
  set (request := search_request (optimized w query) (page_of o) (sort_of o)) in *.
  change (page_of (with_key o cfg1)) with (page_of o) in *.
  change (sort_of (with_key o cfg1)) with (sort_of o) in *.
  change (key_for (with_key o cfg1) query) with (key_for o query) in *.
  fold request in Hdirect.
  rewrite try_keys_cons in Hdirect.
  destruct (attempt (search_endpoint w (request k))) as [| |rs'] eqn:Ek;
    [simpl in Hdirect; discriminate .. |].
  injection Hdirect as -> <-.
  rewrite (searchAliExpress_miss w (with_key o cfg) query st Hq Hne Hmiss).
  unfold after_miss. simpl. rewrite Hcfg, Hkeys.
  change (page_of (with_key o cfg)) with (page_of o).
  change (sort_of (with_key o cfg)) with (sort_of o).
  change (key_for (with_key o cfg) query) with (key_for o query).
  fold request.
  rewrite try_keys_failing.
  2:{ eapply Forall_impl; [exact H403|]. intros k' Hk'. simpl in Hk'.
      destruct (Hk' (request k') eq_refl) as (resp & -> & Hs).
      unfold attempt. by rewrite Hs. }
  rewrite try_keys_cons, Ek.
  eexists. split; [reflexivity|].
  rewrite !logged_app, !file_stored_logged, !sent_stored. simpl.
  split; [done|].
  rewrite !search_calls_app, !search_calls_optimizer. simpl.
  rewrite (search_calls_requests request), !fmap_app.
  unfold request. by rewrite api_key_requests.
Qed.

Lemma rotation_matches_direct_call_witness :
  exists st2,
    searchAliExpress bare_world (with_key lamp_options (JStr "bad1, bad2,good,spare"))
      fresh_state
    = (Ok (Fresh lamp_results), st2)
    ∧ api_key <$> search_calls (sent st2) = [JStr "bad1"; JStr "bad2"; JStr "good"]%string.
Proof.
  destruct (rotation_matches_direct_call bare_world lamp_options
              (JStr "bad1, bad2,good,spare") (JStr "good")
              [JStr "bad1"; JStr "bad2"]%string [JStr "spare"]%string (JStr "good")
              lamp_results fresh_state
              (searchAliExpress bare_world (with_key lamp_options (JStr "good"))
                 fresh_state).2)
    as (st2 & Hrun & _ & Hlog & _).
  - reflexivity.
  - reflexivity.
  - reflexivity.
  - repeat constructor; intros req Hreq; unfold bare_world, lamp_world, gated; simpl;
      rewrite Hreq; simpl; eexists; split; reflexivity.
  - vm_compute. reflexivity.
  - exists st2. split; [exact Hrun | exact Hlog].
Defined.

(** ** Cache hits *)

Lemma as_ResultItem_json (r : ResultItem) : as_ResultItem (item_json r) = r.
Proof. destruct r as [[t|] [p|] [i|] [u|]]; reflexivity. Qed.

Lemma as_ResultList_json (rs : list ResultItem) :
  as_ResultList (results_json rs) = Some rs.
Proof.
  unfold as_ResultList, results_json. f_equal.
  induction rs as [|r rs IH]; [done|].
  by rewrite !fmap_cons, as_ResultItem_json, IH.
Qed.

(** A call that returned on a miss left its results under the request's
    key, provided the write went through. *)
Lemma fresh_result_stored (w : World) (o : Options) (st st1 : St) (rs : list ResultItem) :
  searchAliExpress w o st = (Ok (Fresh rs), st1) ->
  exists query, q o = Some query ∧ query ≠ ""%string
    ∧ hit (cache_of (file st)) (key_for o query) = None
    ∧ file st1 = (if disk_writable w
                  then Stored (<[key_for o query := results_json rs]> (cache_of (file st)))
                  else file st).
Proof.
  intros Hrun.
  destruct (searchAliExpress_cases w o st)
    as [[_ E] | (query & Hq & Hne & [(v & _ & E) | (Hmiss & E)])];
    rewrite E in Hrun; try discriminate.
  exists query. repeat split; try done.
  unfold after_miss in Hrun.
  destruct (key_of w o) as [key|]; [|discriminate].
  destruct (truthy key); [|discriminate].
  apply try_keys_returns in Hrun as (failing & k & rest & rs' & _ & _ & _ & [= <-] & ->).
  by rewrite logged_app, file_stored_logged.
Qed.

(** C3 (as amended). If a call returns, and the write of its results to the
    cache file went through when it had results to write, then a second call
    with the same options, made in any world, returns the cached value and
    leaves the state as it is: no request is sent. What it returns
    serialises to the same JSON as the first result, and reads back as
    exactly the result list the first call built. *)
Theorem second_call_served_from_cache (w w' : World) (o : Options) (st st1 : St)
    (r1 : Returned) :
  searchAliExpress w o st = (Ok r1, st1) ->
  (forall rs, r1 = Fresh rs -> disk_writable w = true) ->
  searchAliExpress w' o st1 = (Ok (FromCache (wire r1)), st1)
  ∧ wire (FromCache (wire r1)) = wire r1
  ∧ (forall rs, r1 = Fresh rs -> as_ResultList (wire r1) = Some rs)
  ∧ (forall v, r1 = FromCache v -> FromCache (wire r1) = r1).
Proof.
  intros Hrun Hdisk.
  assert (Hsecond : searchAliExpress w' o st1 = (Ok (FromCache (wire r1)), st1)).
  { destruct r1 as [rs | v].
    - destruct (fresh_result_stored _ _ _ _ _ Hrun) as (query & Hq & Hne & _ & Hfile).
      rewrite (Hdisk rs eq_refl) in Hfile.
      apply searchAliExpress_hit with query; try done.
      rewrite Hfile. simpl. apply hit_lookup. split; [apply lookup_insert_eq | done].
    - destruct (searchAliExpress_cases w o st)
        as [[_ E] | (query & Hq & Hne & [(v' & Hv & E) | (Hmiss & E)])];
        rewrite E in Hrun; try discriminate.
      + injection Hrun as <- <-. by apply searchAliExpress_hit with query.
      + unfold after_miss in Hrun.
        destruct (key_of w o) as [key|]; [|discriminate].
        destruct (truthy key); [|discriminate].
        by apply try_keys_returns in Hrun as (? & ? & ? & ? & _ & _ & _ & ? & _). }
  split; [exact Hsecond|]. split; [done|]. split.
  - intros rs ->. apply as_ResultList_json.
  - by intros v ->.
Qed.

Lemma second_call_served_from_cache_witness :
  searchAliExpress lamp_shop lamp_options
    (searchAliExpress lamp_shop lamp_options fresh_state).2
  = (Ok (FromCache (results_json lamp_results)),
     (searchAliExpress lamp_shop lamp_options fresh_state).2)
  ∧ as_ResultList (results_json lamp_results) = Some lamp_results.
Proof.
  destruct (second_call_served_from_cache lamp_shop lamp_shop lamp_options fresh_state
              (searchAliExpress lamp_shop lamp_options fresh_state).2
              (Fresh lamp_results)) as (Hrun & _ & Hlist & _).
  - vm_compute. reflexivity.
  - reflexivity.
  - split; [exact Hrun | exact (Hlist lamp_results eq_refl)].
Defined.

(** On a disk that refuses the write, the second call is a miss again and
    contacts the search endpoint a second time. *)
Lemma second_call_refetches_when_write_fails :
  (searchAliExpress readonly_shop lamp_options fresh_state).1 = Ok (Fresh lamp_results)
  ∧ List.length (search_calls (sent
      (searchAliExpress readonly_shop lamp_options fresh_state).2)) = 1%nat
  ∧ List.length (search_calls (sent
      (searchAliExpress readonly_shop lamp_options
         (searchAliExpress readonly_shop lamp_options fresh_state).2).2)) = 2%nat
  ∧ searchAliExpress readonly_shop lamp_options
      (searchAliExpress readonly_shop lamp_options fresh_state).2
    ≠ (Ok (FromCache (wire (Fresh lamp_results))),
       (searchAliExpress readonly_shop lamp_options fresh_state).2).
Proof.
  split; [vm_compute; reflexivity|].
  split; [vm_compute; reflexivity|].
  split; [vm_compute; reflexivity|].
  intros E. apply (f_equal (fun p => List.length (search_calls (sent p.2)))) in E.
  vm_compute in E. discriminate.
Qed.

(** ** The cache key *)

Lemma key_for_raw (o1 o2 : Options) (query : string) :
  page o1 = page o2 -> sort o1 = sort o2 -> key_for o1 query = key_for o2 query.
Proof. unfold key_for, page_of, sort_of. by intros -> ->. Qed.

(** C4. The key under which a call looks up and stores its results is
    [getCacheKey] of the raw query, the page and the sort order. Two calls
    with the same three values, made in two worlds (whose optimizers may
    rewrite the query differently) and with any credentials, write their
    results under one and the same key, and each is served the entry the
    other has written. *)
Theorem cache_key_ignores_optimizer (w1 w2 : World) (o1 o2 : Options)
    (st st1 st2 : St) (rs1 rs2 : list ResultItem) :
  q o1 = q o2 -> page o1 = page o2 -> sort o1 = sort o2 ->
  searchAliExpress w1 o1 st = (Ok (Fresh rs1), st1) ->
  searchAliExpress w2 o2 st = (Ok (Fresh rs2), st2) ->
  exists query,
    q o1 = Some query
    ∧ let key := getCacheKey query (default (SNum (Int 1)) (page o1))
                   (default "default"%string (sort o1)) in
      file st1 = (if disk_writable w1
                  then Stored (<[key := results_json rs1]> (cache_of (file st)))
                  else file st)
      ∧ file st2 = (if disk_writable w2
                    then Stored (<[key := results_json rs2]> (cache_of (file st)))
                    else file st)
      ∧ (disk_writable w1 = true ->
           searchAliExpress w2 o2 st1 = (Ok (FromCache (results_json rs1)), st1))
      ∧ (disk_writable w2 = true ->
           searchAliExpress w1 o1 st2 = (Ok (FromCache (results_json rs2)), st2)).
Proof.
  intros Hq Hp Hs Hrun1 Hrun2.
  destruct (fresh_result_stored _ _ _ _ _ Hrun1) as (query & Hq1 & Hne & _ & Hf1).
  destruct (fresh_result_stored _ _ _ _ _ Hrun2) as (query' & Hq2 & _ & _ & Hf2).
  assert (query' = query) as -> by congruence.
  rewrite <- (key_for_raw o1 o2 query Hp Hs) in Hf2.
  exists query. split; [done|]. simpl.
  change (getCacheKey query (default (SNum (Int 1)) (page o1))
            (default "default"%string (sort o1))) with (key_for o1 query).
  split; [done|]. split; [done|]. split.
  - intros Hd1. rewrite Hd1 in Hf1.
    apply searchAliExpress_hit with query; try done.
    rewrite Hf1, <- (key_for_raw o1 o2 query Hp Hs). simpl.
    apply hit_lookup. split; [apply lookup_insert_eq | done].
  - intros Hd2. rewrite Hd2 in Hf2.
    apply searchAliExpress_hit with query; try done.
    rewrite Hf2. simpl. apply hit_lookup. split; [apply lookup_insert_eq | done].
Qed.

Lemma cache_key_ignores_optimizer_witness :
  optimized lamp_shop "a nice lamp for my desk" = "lamp"%string
  ∧ optimized light_shop "a nice lamp for my desk" = "desk light"%string
  ∧ file (searchAliExpress lamp_shop lamp_options fresh_state).2
    = Stored {[ "a nice lamp for my desk|1|default"%string := results_json lamp_results ]}
  ∧ searchAliExpress light_shop lamp_options
      (searchAliExpress lamp_shop lamp_options fresh_state).2
    = (Ok (FromCache (results_json lamp_results)),
       (searchAliExpress lamp_shop lamp_options fresh_state).2).
Proof.
  destruct (cache_key_ignores_optimizer lamp_shop light_shop lamp_options lamp_options
              fresh_state
              (searchAliExpress lamp_shop lamp_options fresh_state).2
              (searchAliExpress light_shop lamp_options fresh_state).2
              lamp_results lamp_results)
    as (query & Hq & Hf1 & _ & Hhit & _).
  - reflexivity.
  - reflexivity.
  - reflexivity.
  - vm_compute. reflexivity.
  - vm_compute. reflexivity.
  - injection Hq as <-.
    split; [reflexivity|]. split; [reflexivity|].
    split; [exact Hf1 | exact (Hhit eq_refl)].
Defined.

(** ** The page argument of the route *)

Lemma page_argument_number (p : option string) : exists n, page_argument p = SNum n.
Proof.
  destruct p as [p|]; simpl; [destruct (str_truthy p)|]; eexists; reflexivity.
Qed.

(** C5 (as amended). When the [page] parameter is absent (or empty), the
    route passes the number 1 as the page; otherwise it passes whatever
    [parseInt] makes of the parameter, [NaN] included. The string
    ["default"] is never passed: in [1 || 'default'] the left operand is
    truthy. *)
Theorem route_page_defaults_to_one (q0 : string) (query : Query) :
  (query_page query = None ∨ query_page query = Some ""%string ->
     page (route_options q0 query) = Some (SNum (Int 1))
     ∧ page_of (route_options q0 query) = SNum (Int 1)
     ∧ forall optimizedQuery s key,
         param_page (search_request optimizedQuery (page_of (route_options q0 query)) s key)
         = "1"%string)
  ∧ (forall p, query_page query = Some p -> p ≠ ""%string ->
       page (route_options q0 query) = Some (SNum (parseInt p)))
  ∧ page (route_options q0 query) ≠ Some (SStr "default").
Proof.
  unfold route_options, page_of; simpl. repeat split.
  - by destruct H as [-> | ->].
  - by destruct H as [-> | ->].
  - by destruct H as [-> | ->].
  - intros p -> Hp%str_truthy_true. simpl. by rewrite Hp.
  - destruct (page_argument_number (query_page query)) as [n ->]. discriminate.
Qed.

Lemma route_page_defaults_to_one_witness :
  page (route_options "lamp" lamp_query) = Some (SNum (Int 1))
  ∧ page (route_options "lamp" second_page_query) = Some (SNum (Int 2)).
Proof.
  split.
  - apply (route_page_defaults_to_one "lamp" lamp_query). by left.
  - apply (proj1 (proj2 (route_page_defaults_to_one "lamp" second_page_query))
             "2"%string eq_refl).
    discriminate.
Defined.

(** With no [page] parameter the pipeline is handed the number 1, not the
    string ["default"], and the search request asks for page 1. *)
Lemma route_absent_page_is_not_default :
  page (route_options "lamp" lamp_query) = Some (SNum (Int 1))
  ∧ page (route_options "lamp" lamp_query) ≠ Some (SStr "default")
  ∧ param_page <$> search_calls (sent (search_route plain_shop lamp_query fresh_state).2)
    = ["1"; "1"]%string.
Proof. split; [reflexivity|]. split; [discriminate|]. vm_compute. reflexivity. Qed.

(** ** Failing credentials *)

(** The four ways a credential fails that the specification names, and the
    error each leaves in [lastError]. *)
Lemma failure_kinds (i : nat) :
  (forall e, recorded i (attempt (Rejected e)) = Some e)
  ∧ (forall resp, status resp = 403 ->
       recorded i (attempt (Ok resp)) = Some (forbidden_error i))
  ∧ (forall resp body, status resp ≠ 403 -> ok (status resp) = false ->
       text resp = Ok body ->
       recorded i (attempt (Ok resp))
       = Some (mkError Error_ ("HTTP error! status: " +:+ pretty (status resp)
                               +:+ ", body: " +:+ body)))
  ∧ (forall resp fields err s, ok (status resp) = true ->
       json resp = Ok (JObj fields) -> own "error" fields = Some err ->
       truthy err = true -> to_string err = Ok s ->
       recorded i (attempt (Ok resp)) = Some (mkError Error_ ("API Error: " +:+ s))).
Proof.
  repeat split.
  - intros resp Hs. unfold attempt. by rewrite Hs.
  - intros resp body Hs%Z.eqb_neq Hok Ht. unfold attempt, read_response.
    by rewrite Hs, Hok, Ht.
  - intros resp fields err s Hok Hj He Ht Hs. unfold attempt, read_response.
    assert ((status resp =? 403) = false) as ->.
    { unfold ok in Hok. apply Z.eqb_neq. lia. }
    rewrite Hok, Hj. simpl. by rewrite He, Ht, Hs.
Qed.

Lemma recorded_failed (i : nat) (a : Attempt) :
  failed a = true -> exists e, recorded i a = Some e.
Proof. destruct a; simpl; [eauto | eauto | discriminate]. Qed.

(** C6. On a miss, with a configured credential list that is not empty
    ([k_last] being its last element) and whose every credential fails
    whatever the request, the call fails with one [Error] whose message
    gives the number of credentials and, after it, the message of the error
    recorded for the last request sent, which carried [k_last]. *)
Theorem exhaustion_reports_count_and_last_error (w : World) (o : Options)
    (query : string) (st : St) (cfg k_last : Json) :
  q o = Some query -> query ≠ ""%string ->
  hit (cache_of (file st)) (key_for o query) = None ->
  key_of w o = Some cfg -> truthy cfg = true ->
  last (api_keys cfg) = Some k_last ->
  Forall (fun k => forall req, api_key req = k ->
            failed (attempt (search_endpoint w req)) = true) (api_keys cfg) ->
  let N := List.length (api_keys cfg) in
  exists req e st',
    api_key req = k_last
    ∧ last (search_calls (sent st')) = Some req
    ∧ recorded (N - 1) (attempt (search_endpoint w req)) = Some e
    ∧ searchAliExpress w o st
      = (Rejected (mkError Error_
           ("Failed to search AliExpress with all " +:+ pretty (Z.of_nat N)
            +:+ " API key(s). Last error: " +:+ message e)), st')
    ∧ file st' = file st.
Proof.
  intros Hq Hne Hmiss Hkey Hcfg Hlast Hfail N.
  rewrite (searchAliExpress_miss w o query st Hq Hne Hmiss).
  unfold after_miss. rewrite Hkey, Hcfg. fold N.
  set (request := search_request (optimized w query) (page_of o) (sort_of o)).
  apply last_Some in Hlast as [keys Hkeys].
  assert (HN : N = (List.length keys + 1)%nat).
  { unfold N. rewrite Hkeys, length_app. simpl. lia. }
  assert (Hk : failed (attempt (search_endpoint w (request k_last))) = true).
  { rewrite Forall_forall in Hfail. apply (Hfail k_last); [|done].
    rewrite Hkeys. apply elem_of_app. right. by apply list_elem_of_singleton. }
  destruct (recorded_failed (List.length keys) _ Hk) as [e He].
  assert (Hfail' : Forall (fun k => failed (attempt (search_endpoint w (request k))) = true)
                     (api_keys cfg)).
  { eapply Forall_impl; [exact Hfail|]. intros k Hk'. by apply Hk'. }
  pose proof (try_keys_failing w request (key_for o query) (cache_of (file st)) N
                (api_keys cfg) [] Hfail' 0%nat None
                (logged st (optimizer_calls w query))) as Hrun.
  rewrite app_nil_r in Hrun.
  assert (Hlr : last_recorded w request 0 (api_keys cfg) None = Some e).
  { by rewrite Hkeys, last_recorded_snoc. }
  rewrite Hlr in Hrun. simpl in Hrun.
  exists (request k_last), e. eexists. rewrite Hrun. split; [done|].
  split; [|split; [|split; [reflexivity|done]]].
  - rewrite logged_app. simpl. rewrite Hkeys, !search_calls_app, search_calls_optimizer.
    rewrite fmap_app, search_calls_app. simpl.
    change (search_calls [SearchCall (request k_last)]) with [request k_last].
    by rewrite !app_assoc, last_snoc.
  - rewrite HN. replace (List.length keys + 1 - 1)%nat with (List.length keys) by lia.
    exact He.
Qed.

Lemma exhaustion_reports_count_and_last_error_witness :
  (searchAliExpress refusing_world lamp_options fresh_state).1
  = Rejected (mkError Error_
      "Failed to search AliExpress with all 4 API key(s). Last error: API Error: quota").
Proof.
  destruct (exhaustion_reports_count_and_last_error refusing_world lamp_options
              "a nice lamp for my desk" fresh_state
              (JStr "bad, down,over,err") (JStr "err"))
    as (req & e & st' & Hk & _ & He & Hrun & _).
  - reflexivity.
  - discriminate.
  - reflexivity.
  - reflexivity.
  - reflexivity.
  - reflexivity.
  - repeat constructor; intros req Hreq; unfold refusing_world, refusing; simpl;
      rewrite Hreq; reflexivity.
  - rewrite Hrun. simpl.
    unfold refusing_world, refusing in He. simpl in He. rewrite Hk in He. simpl in He.
    injection He as <-. reflexivity.
Defined.

(** ** The optimizer without a credential *)

Lemma ai_calls_app (l1 l2 : list Event) : ai_calls (l1 ++ l2) = ai_calls l1 ++ ai_calls l2.
Proof. apply omap_app. Qed.

Lemma ai_calls_requests (request : Json -> SearchRequest) (keys : list Json) :
  ai_calls ((fun k => SearchCall (request k)) <$> keys) = [].
Proof. induction keys as [|k keys IH]; [done|]. exact IH. Qed.

Lemma no_credential_no_rewrite (w : World) (query : string) :
  HACKCLUB_API_KEY w = None ∨ HACKCLUB_API_KEY w = Some ""%string ->
  optimized w query = query ∧ optimizer_calls w query = [].
Proof. unfold optimized, optimizer_calls. by intros [-> | ->]. Qed.

(** C7. When no language-model credential is configured (the variable is
    unset or empty), the optimizer returns its input and leaves the state
    alone; and in a call of [searchAliExpress] with query [query], whatever
    its outcome, no request goes to the rewrite endpoint and every search
    request sent has [query] itself as its [q] parameter. *)
Theorem unconfigured_optimizer_keeps_query (w : World) (query : string) :
  HACKCLUB_API_KEY w = None ∨ HACKCLUB_API_KEY w = Some ""%string ->
  (forall st, optimizeSearchQuery w query st = (Ok query, st))
  ∧ forall o st, q o = Some query ->
      let st' := (searchAliExpress w o st).2 in
      ai_calls (sent st') = ai_calls (sent st)
      ∧ exists used,
          search_calls (sent st')
          = search_calls (sent st) ++ (search_request query (page_of o) (sort_of o) <$> used)
          ∧ Forall (fun req => param_q req = query)
              (search_request query (page_of o) (sort_of o) <$> used).
Proof.
  intros Hkey. destruct (no_credential_no_rewrite w query Hkey) as [Hopt Hcalls].
  split.
  - intros st. by rewrite optimizeSearchQuery_run, Hopt, Hcalls, logged_nil.
  - intros o st Hq. simpl.
    assert (Hall : forall used, Forall (fun req => param_q req = query)
                     (search_request query (page_of o) (sort_of o) <$> used)).
    { intros used. apply Forall_fmap, Forall_forall. by intros. }
    assert (Hsame : forall s, s = st -> ai_calls (sent s) = ai_calls (sent st)
              ∧ exists used, search_calls (sent s)
                  = search_calls (sent st)
                    ++ (search_request query (page_of o) (sort_of o) <$> used)
                ∧ Forall (fun req => param_q req = query)
                    (search_request query (page_of o) (sort_of o) <$> used)).
    { intros s ->. split; [done|]. exists []. split; [by rewrite app_nil_r | done]. }
    destruct (searchAliExpress_cases w o st)
      as [[_ E] | (query' & Hq' & Hne & [(v & _ & E) | (Hmiss & E)])];
      [rewrite E; by apply Hsame .. |].
    rewrite E. assert (query' = query) as -> by congruence.
    unfold after_miss. rewrite Hopt, Hcalls, logged_nil.
    destruct (key_of w o) as [key|]; [|by apply Hsame].
    destruct (truthy key); [|by apply Hsame].
    destruct (try_keys_log w (search_request query (page_of o) (sort_of o))
                (key_for o query) (cache_of (file st)) (List.length (api_keys key))
                (api_keys key) 0%nat None st) as (used & _ & ->).
    rewrite ai_calls_app, ai_calls_requests, app_nil_r. split; [done|].
    exists used. by rewrite search_calls_app, search_calls_requests.
Qed.

Lemma unconfigured_optimizer_keeps_query_witness :
  optimizeSearchQuery plain_shop "a nice lamp for my desk" fresh_state
  = (Ok "a nice lamp for my desk"%string, fresh_state)
  ∧ ai_calls (sent (searchAliExpress plain_shop lamp_options fresh_state).2) = [].
Proof.
  destruct (unconfigured_optimizer_keeps_query plain_shop "a nice lamp for my desk")
    as [Hopt Hrun].
  - by left.
  - split; [apply Hopt|]. by apply (Hrun lamp_options fresh_state).
Defined.

(** ** Missing and empty credentials *)

(** C8 (as amended). On a miss with no search credential (neither the
    option nor the environment variable gives one, or what they give is
    falsy), the call fails with the missing-credential error, the cache
    file is untouched and no request goes to the search endpoint. The
    optimizer has run by then: when a language-model credential is
    configured, exactly one request has gone to the rewrite endpoint; when
    none is, nothing at all was sent. *)
Theorem missing_credential_rejected_before_search (w : World) (o : Options)
    (query : string) (st : St) :
  q o = Some query -> query ≠ ""%string ->
  hit (cache_of (file st)) (key_for o query) = None ->
  (key_of w o = None ∨ exists k, key_of w o = Some k ∧ truthy k = false) ->
  exists st',
    searchAliExpress w o st = (Rejected key_required, st')
    ∧ file st' = file st
    ∧ search_calls (sent st') = search_calls (sent st)
    ∧ (forall k, HACKCLUB_API_KEY w = Some k -> k ≠ ""%string ->
         sent st' = sent st ++ [AiCall (ai_request k query)])
    ∧ (HACKCLUB_API_KEY w = None ∨ HACKCLUB_API_KEY w = Some ""%string -> st' = st).
Proof.
  intros Hq Hne Hmiss Hkey.
  exists (logged st (optimizer_calls w query)).
  rewrite (searchAliExpress_miss w o query st Hq Hne Hmiss). unfold after_miss.
  split; [|split; [done|split; [|split]]].
  - destruct Hkey as [-> | (k & -> & ->)]; reflexivity.
  - simpl. by rewrite search_calls_app, search_calls_optimizer, app_nil_r.
  - intros k Hk Hk'%str_truthy_true. unfold optimizer_calls. by rewrite Hk, Hk'.
  - intros H. destruct (no_credential_no_rewrite w query H) as [_ ->]. apply logged_nil.
Qed.

Lemma missing_credential_rejected_before_search_witness :
  searchAliExpress bare_world lamp_options fresh_state
  = (Rejected key_required, fresh_state).
Proof.
  destruct (missing_credential_rejected_before_search bare_world lamp_options
              "a nice lamp for my desk" fresh_state)
    as (st' & Hrun & _ & _ & _ & Hst).
  - reflexivity.
  - discriminate.
  - reflexivity.
  - by left.
  - rewrite Hrun, Hst; [reflexivity | by left].
Defined.

(** With a language-model credential configured, the rewrite endpoint has
    been called by the time the missing search credential is reported. *)
Lemma missing_credential_reported_after_ai_call :
  hit (cache_of (file fresh_state)) (key_for lamp_options "a nice lamp for my desk") = None
  ∧ key_of keyless_shop lamp_options = None
  ∧ searchAliExpress keyless_shop lamp_options fresh_state
    = (Rejected key_required,
       mkSt Missing [AiCall (ai_request "hk" "a nice lamp for my desk")])
  ∧ ai_calls (sent (searchAliExpress keyless_shop lamp_options fresh_state).2) ≠ [].
Proof. split; [reflexivity|]. split; [reflexivity|]. split; [reflexivity|]. discriminate. Qed.

(** C9. With the credentials given as the empty array, on a miss: the
    array is truthy, so the missing-credential test lets it through; the
    loop sends nothing; and reading [lastError.message] on [null] fails the
    call with a [TypeError], which is not the exhaustion error. *)
Theorem empty_credential_array_dereferences_null (w : World) (o : Options)
    (query : string) (st : St) :
  q o = Some query -> query ≠ ""%string ->
  hit (cache_of (file st)) (key_for o query) = None ->
  key_of w o = Some (JArr []) ->
  truthy (JArr []) = true
  ∧ exists st',
      searchAliExpress w o st
      = (Rejected (mkError TypeError_ "Cannot read properties of null (reading 'message')"),
         st')
      ∧ file st' = file st
      ∧ search_calls (sent st') = search_calls (sent st)
      ∧ forall e, searchAliExpress w o st ≠ (Rejected (exhausted_error 0 e), st').
Proof.
  intros Hq Hne Hmiss Hkey. split; [done|].
  exists (logged st (optimizer_calls w query)).
  rewrite (searchAliExpress_miss w o query st Hq Hne Hmiss). unfold after_miss.
  rewrite Hkey. simpl. repeat split.
  - by rewrite search_calls_app, search_calls_optimizer, app_nil_r.
  - discriminate.
Qed.

Lemma empty_credential_array_dereferences_null_witness :
  (searchAliExpress lamp_shop (with_key lamp_options (JArr [])) fresh_state).1
  = Rejected (mkError TypeError_ "Cannot read properties of null (reading 'message')").
Proof.
  destruct (empty_credential_array_dereferences_null lamp_shop
              (with_key lamp_options (JArr []))
              "a nice lamp for my desk" fresh_state)
    as (_ & st' & Hrun & _).
  - reflexivity.
  - discriminate.
  - reflexivity.
  - reflexivity.
  - by rewrite Hrun.
Defined.

(** ** A response without a result list *)

(** C10 (as amended). On a miss, let the configured credentials be
    [failing ++ k :: rest], the attempts with the credentials of [failing]
    failing on the requests the call sends, and let the request it sends
    with [k] be answered with a success status and a JSON body that is not
    [null], has no truthy [error] field, and whose [result] or
    [result.resultList] is absent or [null]. Then the call returns the empty
    list and, the write to the cache file going through, stores the empty
    array under the request's key; from then on the same request, in any
    world, returns the cached empty array and leaves the state as it is, so
    that no request is sent however often it is repeated. *)
Theorem absent_result_list_cached_as_empty (w : World) (o : Options) (query : string)
    (st : St) (cfg k : Json) (failing rest : list Json) (resp : SearchResponse)
    (data : Json) :
  q o = Some query -> query ≠ ""%string ->
  hit (cache_of (file st)) (key_for o query) = None ->
  key_of w o = Some cfg -> truthy cfg = true -> api_keys cfg = failing ++ k :: rest ->
  let request := search_request (optimized w query) (page_of o) (sort_of o) in
  Forall (fun k' => failed (attempt (search_endpoint w (request k'))) = true) failing ->
  search_endpoint w (request k) = Ok resp ->
  ok (status resp) = true -> json resp = Ok data -> data ≠ JNull ->
  truthy_opt (prop "error" data) = false ->
  (opt_chain "resultList" (prop "result" data) = None
   ∨ opt_chain "resultList" (prop "result" data) = Some JNull) ->
  disk_writable w = true ->
  exists st1,
    searchAliExpress w o st = (Ok (Fresh []), st1)
    ∧ file st1 = Stored (<[key_for o query := JArr []]> (cache_of (file st)))
    ∧ search_calls (sent st1) = search_calls (sent st) ++ (request <$> failing ++ [k])
    ∧ (forall w', searchAliExpress w' o st1 = (Ok (FromCache (JArr [])), st1))
    ∧ (forall w' n, Nat.iter n (fun s => (searchAliExpress w' o s).2) st1 = st1).
Proof.
  intros Hq Hne Hmiss Hkey Hcfg Hkeys request Hfail Hresp Hok Hjson Hnn Herr Hlist Hdisk.
  assert (Hattempt : attempt (search_endpoint w (request k)) = Succeeded []).
  { rewrite Hresp. unfold attempt, read_response.
    assert ((status resp =? 403) = false) as ->.
    { unfold ok in Hok. apply Z.eqb_neq. lia. }
    rewrite Hok, Hjson. simpl.
    assert (Hex : extract_results data = Ok []).
    { unfold extract_results. by destruct Hlist as [-> | ->]. }
    assert (Hbody : match prop "error" data with
                    | Some err =>
                        if truthy err then
                          s ← to_string err; Rejected (mkError Error_ ("API Error: " +:+ s))
                        else extract_results data
                    | None => extract_results data
                    end = Ok ([] : list ResultItem)).
    { unfold truthy_opt in Herr. destruct (prop "error" data) as [err|]; [|done].
      by rewrite Herr. }
    destruct data; try done; by rewrite Hbody. }
  rewrite (searchAliExpress_miss w o query st Hq Hne Hmiss). unfold after_miss.
  rewrite Hkey, Hcfg, Hkeys. fold request.
  rewrite (try_keys_failing w request _ _ _ failing (k :: rest) Hfail).
  rewrite try_keys_cons, Hattempt, !logged_app.
  set (st1 := stored w (key_for o query) [] (cache_of (file st))
                (logged st (optimizer_calls w query
                            ++ ((fun k0 => SearchCall (request k0)) <$> failing)
                            ++ [SearchCall (request k)]))).
  exists st1. split; [reflexivity|].
  assert (Hfile : file st1 = Stored (<[key_for o query := JArr []]> (cache_of (file st)))).
  { unfold st1. by rewrite file_stored_logged, Hdisk. }
  split; [exact Hfile|].
  assert (Hhit : forall w', searchAliExpress w' o st1 = (Ok (FromCache (JArr [])), st1)).
  { intros w'. apply searchAliExpress_hit with query; try done.
    rewrite Hfile. simpl. apply hit_lookup. split; [apply lookup_insert_eq | done]. }
  split; [|split; [exact Hhit|]].
  - unfold st1. rewrite sent_stored. unfold logged. cbn [sent].
    rewrite !search_calls_app, search_calls_optimizer, search_calls_requests.
    rewrite app_nil_l, fmap_app. reflexivity.
  - intros w' n. induction n as [|n IH]; [done|]. simpl. by rewrite IH, Hhit.
Qed.

Lemma absent_result_list_cached_as_empty_witness :
  exists st1,
    searchAliExpress bare_rotation_shop lamp_options fresh_state = (Ok (Fresh []), st1)
    ∧ file st1 = Stored {[ "a nice lamp for my desk|1|default"%string := JArr [] ]}
    ∧ api_key <$> search_calls (sent st1) = [JStr "bad"; JStr "worse"; JStr "good"]%string
    ∧ searchAliExpress bare_rotation_shop lamp_options st1
      = (Ok (FromCache (JArr [])), st1).
Proof.
  destruct (absent_result_list_cached_as_empty bare_rotation_shop lamp_options
              "a nice lamp for my desk"
              fresh_state (JStr "bad, worse,good,spare") (JStr "good")
              [JStr "bad"; JStr "worse"]%string [JStr "spare"]%string
              {| status := 200; text := Ok ""%string; json := Ok bare_body |} bare_body)
    as (st1 & Hrun & Hfile & Hlog & Hhit & _).
  - reflexivity.
  - discriminate.
  - reflexivity.
  - reflexivity.
  - reflexivity.
  - reflexivity.
  - repeat constructor.
  - reflexivity.
  - reflexivity.
  - reflexivity.
  - discriminate.
  - reflexivity.
  - by left.
  - reflexivity.
  - exists st1. split; [exact Hrun|]. split; [exact Hfile|]. split; [|apply Hhit].
    rewrite Hlog. reflexivity.
Defined.

(** A success body whose [result.resultList] is present but is not an array
    has no error field and no result list array, yet the call does not
    return the empty list: the attempt throws, and with one credential the
    call fails and nothing is cached. *)
Lemma non_array_result_list_is_a_failure :
  search_endpoint odd_shop (search_request "a nice lamp for my desk" (SNum (Int 1))
                              "default" (JStr "good"))
  = responds 200 odd_body
  ∧ prop "error" odd_body = None
  ∧ opt_chain "resultList" (prop "result" odd_body) = Some (JObj [])
  ∧ (searchAliExpress odd_shop lamp_options fresh_state).1
    = Rejected (mkError Error_
        ("Failed to search AliExpress with all 1 API key(s). Last error: "
         +:+ "data.result?.resultList?.slice is not a function"))
  ∧ (searchAliExpress odd_shop lamp_options fresh_state).1 ≠ Ok (Fresh [])
  ∧ file (searchAliExpress odd_shop lamp_options fresh_state).2 = Missing.
Proof.
  split; [reflexivity|]. split; [reflexivity|]. split; [reflexivity|].
  split; [reflexivity|]. split; [discriminate | reflexivity].
Qed.

(** * Further properties of the code *)

(** ** The projection of a response *)

Lemma map_outcome_lookup {A B : Type} (f : A -> Outcome B) (l : list A) (l' : list B) :
  map_outcome f l = Ok l' ->
  forall i y, l' !! i = Some y -> exists x, l !! i = Some x ∧ f x = Ok y.
Proof.
  revert l'. induction l as [|x l IH]; intros l' H i y Hy; simpl in H.
  - injection H as <-. by rewrite lookup_nil in Hy.
  - destruct (f x) as [y0|] eqn:Ex; [|discriminate]. simpl in H.
    destruct (map_outcome f l) as [ys|]; [|discriminate]. simpl in H.
    injection H as <-. destruct i as [|i]; simpl in *.
    + injection Hy as <-. by exists x.
    + by apply (IH ys).
Qed.

Lemma map_outcome_total {A B : Type} (f : A -> Outcome B) (l : list A) :
  Forall (fun x => exists y, f x = Ok y) l -> exists l', map_outcome f l = Ok l'.
Proof.
  induction 1 as [|x l [y Hy] _ [l' IH]]; simpl.
  - by eexists.
  - rewrite Hy, IH. by eexists.
Qed.

(** X1. When the body carries a result list that is an array, a returned
    projection has as many items as the array has entries, three at most;
    its i-th item is the projection of the i-th upstream entry, so the
    upstream order is kept; and entries after the third are never looked
    at: if the first three can each be projected, the projection returns. *)
Theorem extract_results_first_three (data : Json) (xs : list Json) :
  opt_chain "resultList" (prop "result" data) = Some (JArr xs) ->
  (forall rs, extract_results data = Ok rs ->
     List.length rs = Nat.min 3 (List.length xs)
     ∧ forall i r, rs !! i = Some r ->
         (i < 3)%nat ∧ exists x, xs !! i = Some x ∧ project x = Ok r)
  ∧ (Forall (fun x => exists r, project x = Ok r) (take 3 xs) ->
     exists rs, extract_results data = Ok rs).
Proof.
  intros Hlist. unfold extract_results. rewrite Hlist. split.
  - intros rs Hrs. split.
    + by rewrite (map_outcome_length _ _ _ Hrs), length_take.
    + intros i r Hr.
      destruct (map_outcome_lookup _ _ _ Hrs i r Hr) as (x & Hx & Hp).
      apply lookup_take_Some in Hx as [Hx Hi]. split; [done|]. by exists x.
  - apply map_outcome_total.
Qed.

Lemma extract_results_first_three_witness :
  List.length lamp_results = 3%nat
  ∧ exists x, project x = Ok (lamp_item "Floor lamp" "https://ae01.alicdn.com/kf/b.jpg" 30).
Proof.
  destruct (extract_results_first_three lamp_body
              [entry "Desk lamp" "//ae01.alicdn.com/kf/a.jpg" 12;
               entry "Floor lamp" "//ae01.alicdn.com/kf/b.jpg" 30;
               entry "Wall lamp" "//ae01.alicdn.com/kf/c.jpg" 18;
               entry "Night lamp" "//ae01.alicdn.com/kf/d.jpg" 7] eq_refl) as [H _].
  destruct (H lamp_results eq_refl) as [Hlen Hitems].
  split; [exact Hlen|].
  destruct (Hitems 1%nat _ eq_refl) as (_ & x & _ & Hx). by exists x.
Defined.

(** ** The outcome of one attempt *)

Lemma read_response_ok (resp : SearchResponse) (rs : list ResultItem) :
  read_response resp = Ok rs <->
  exists data, ok (status resp) = true ∧ json resp = Ok data ∧ data ≠ JNull
    ∧ truthy_opt (prop "error" data) = false ∧ extract_results data = Ok rs.
Proof.
  unfold read_response. split.
  - destruct (ok (status resp)); simpl.
    2:{ destruct (text resp); discriminate. }
    destruct (json resp) as [data|]; [|discriminate]. simpl.
    intros H. exists data.
    assert (data ≠ JNull ∧ truthy_opt (prop "error" data) = false
            ∧ extract_results data = Ok rs) as (? & ? & ?); [|done].
    unfold truthy_opt.
    destruct data; try discriminate;
      (destruct (prop "error" _) as [err|]; [destruct (truthy err) eqn:Et|]);
      try done; simpl in H; destruct (to_string err); discriminate.
  - intros (data & -> & -> & Hnn & Herr & Hex). simpl. unfold truthy_opt in Herr.
    destruct data; try done;
      (destruct (prop "error" _) as [err|]; [rewrite Herr|]); done.
Qed.

(** X2. One attempt of the loop returns results exactly when the fetch
    resolved with a 2xx status and a JSON body that is not [null], has no
    truthy [error] field and can be projected; it takes the 403 branch
    exactly when the fetch resolved with status 403, whatever the body. *)
Theorem attempt_outcomes (r : Outcome SearchResponse) :
  (forall rs, attempt r = Succeeded rs <->
     exists resp data, r = Ok resp ∧ ok (status resp) = true ∧ json resp = Ok data
       ∧ data ≠ JNull ∧ truthy_opt (prop "error" data) = false
       ∧ extract_results data = Ok rs)
  ∧ (attempt r = Forbidden <-> exists resp, r = Ok resp ∧ status resp = 403).
Proof.
  split.
  - intros rs. unfold attempt. destruct r as [resp|e].
    + split.
      * destruct (status resp =? 403) eqn:Es; [discriminate|].
        destruct (read_response resp) as [rs'|] eqn:Er; [|discriminate].
        intros [= <-]. apply read_response_ok in Er as (data & Hok & Hj & Hnn & He & Hx).
        exists resp, data. by repeat split.
      * intros (resp' & data & [= <-] & Hok & Hj & Hnn & He & Hx).
        assert ((status resp =? 403) = false) as ->.
        { unfold ok in Hok. apply Z.eqb_neq. lia. }
        assert (read_response resp = Ok rs) as ->; [|done].
        apply read_response_ok. exists data. by repeat split.
    + split; [discriminate|]. by intros (? & ? & ? & _).
  - unfold attempt. destruct r as [resp|e].
    + destruct (status resp =? 403) eqn:Es.
      * apply Z.eqb_eq in Es. split; [by exists resp | done].
      * apply Z.eqb_neq in Es. split.
        -- by destruct (read_response resp).
        -- by intros (resp' & [= <-] & ?).
    + split; [discriminate|]. by intros (? & ? & _).
Qed.

(** ** Trimming *)

Lemma trim_start_no_leading_space (s : string) : no_leading_space (trim_start s).
Proof.
  induction s as [|c s IH]; simpl; [done|].
  destruct (is_space c) eqn:Ec; [done | exact Ec].
Qed.

Lemma trim_start_fixed (s : string) : no_leading_space s -> trim_start s = s.
Proof. destruct s as [|c s]; simpl; [done|]. by intros ->. Qed.

Lemma trim_end_no_leading_space (s : string) :
  no_leading_space s -> no_leading_space (trim_end s).
Proof.
  destruct s as [|c s]; simpl; [done|]. intros Hc.
  destruct (trim_end s); [by rewrite Hc | done].
Qed.

Lemma trim_end_idempotent (s : string) : trim_end (trim_end s) = trim_end s.
Proof.
  induction s as [|c s IH]; simpl; [done|].
  destruct (trim_end s) as [|c' r] eqn:Er.
  - destruct (is_space c) eqn:Ec; simpl; [done | by rewrite Ec].
  - change (trim_end (String c (String c' r))) with
      (match trim_end (String c' r) with
       | EmptyString => if is_space c then EmptyString else String c EmptyString
       | r0 => String c r0
       end).
    by rewrite IH.
Qed.

Lemma trim_idempotent (s : string) : trim (trim s) = trim s.
Proof.
  unfold trim. rewrite (trim_start_fixed (trim_end (trim_start s))).
  - apply trim_end_idempotent.
  - apply trim_end_no_leading_space, trim_start_no_leading_space.
Qed.

(** ** The optimizer *)

Lemma optimized_or_throw_shape (query : string) (r : Outcome AiResponse) (s : string) :
  optimized_or_throw query r = Ok s ->
  s = query ∨ (s ≠ ""%string ∧ exists raw, s = trim raw).
Proof.
  unfold optimized_or_throw. destruct r as [resp|]; [|discriminate]. simpl.
  destruct (ok (ai_status resp)); [|discriminate]. simpl.
  destruct (ai_json resp) as [data|]; [|discriminate]. simpl.
  destruct (first_choice data) as [[raw|]|] eqn:Ec; simpl; try discriminate.
  - destruct (str_truthy raw) eqn:Et; intros [= <-]; [|by left].
    right. split; [by apply str_truthy_true|].
    unfold first_choice in Ec. destruct data; try discriminate;
      destruct (opt_chain "content" _) as [[]|]; try discriminate;
      injection Ec as <-; by eexists.
  - intros [= <-]. by left.
Qed.

(** X3. The optimizer never throws and never touches the cache file. It
    sends at most one request, and only when a non-empty credential is
    configured: a POST with that credential as bearer, the fixed model and the
    prompt built from the query. What it returns is either the query it was
    given, or a non-empty string with no surrounding white space; so a
    non-empty query never becomes empty. *)
Theorem optimizer_is_safe (w : World) (query : string) (st : St) :
  exists s calls,
    optimizeSearchQuery w query st = (Ok s, mkSt (file st) (sent st ++ calls))
    ∧ (calls = []
       ∨ exists k, HACKCLUB_API_KEY w = Some k ∧ k ≠ ""%string
           ∧ calls = [AiCall {| authorization := "Bearer " +:+ k;
                                model := "qwen/qwen3-32b";
                                content := ai_prompt query |}])
    ∧ (s = query ∨ (s ≠ ""%string ∧ trim s = s))
    ∧ (query ≠ ""%string -> s ≠ ""%string).
Proof.
  exists (optimized w query), (optimizer_calls w query).
  split; [apply optimizeSearchQuery_run|].
  assert (Hshape : optimized w query = query
                   ∨ (optimized w query ≠ ""%string
                      ∧ trim (optimized w query) = optimized w query)).
  { unfold optimized. destruct (HACKCLUB_API_KEY w) as [k|]; [|by left].
    destruct (str_truthy k); [|by left].
    destruct (optimized_or_throw query _) as [s|] eqn:Eo; [|by left].
    destruct (optimized_or_throw_shape _ _ _ Eo) as [-> | (Hne & raw & ->)]; [by left|].
    right. split; [done | apply trim_idempotent]. }
  split; [|split; [exact Hshape|]].
  - unfold optimizer_calls. destruct (HACKCLUB_API_KEY w) as [k|]; [|by left].
    destruct (str_truthy k) eqn:Ek; [|by left].
    right. exists k. apply str_truthy_true in Ek. by repeat split.
  - intros Hq. destruct Hshape as [-> | [? _]]; done.
Qed.

(** X4. With a credential configured, the optimizer answers with the
    trimmed [choices[0].message.content] when the endpoint answers with a 2xx
    status and a JSON body in which that content is a string that is not
    blank. It answers with the query it was given when the fetch is
    rejected, when the status is not 2xx, when the body is not JSON, when
    the content is missing or [null], when it is not a string, and when it
    is blank. *)
Theorem optimizer_rewrites_only_on_clean_answer (w : World) (query k : string) (st : St) :
  HACKCLUB_API_KEY w = Some k -> k ≠ ""%string ->
  let answer := ai_endpoint w (ai_request k query) in
  let content_of data :=
    opt_chain "content" (opt_chain "message" (opt_index0 (prop "choices" data))) in
  let result := (optimizeSearchQuery w query st).1 in
  (forall resp data raw,
     answer = Ok resp -> ok (ai_status resp) = true -> ai_json resp = Ok data ->
     data ≠ JNull -> content_of data = Some (JStr raw) -> trim raw ≠ ""%string ->
     result = Ok (trim raw))
  ∧ (forall e, answer = Rejected e -> result = Ok query)
  ∧ (forall resp, answer = Ok resp -> ok (ai_status resp) = false -> result = Ok query)
  ∧ (forall resp e, answer = Ok resp -> ai_json resp = Rejected e -> result = Ok query)
  ∧ (forall resp data, answer = Ok resp -> ai_json resp = Ok data ->
       (forall raw, content_of data = Some (JStr raw) -> trim raw = ""%string) ->
       result = Ok query).
Proof.
  intros Hk Hne answer content_of result.
  assert (Hres : result = Ok (match optimized_or_throw query answer with
                              | Ok s => s
                              | Rejected _ => query
                              end)).
  { unfold result. rewrite optimizeSearchQuery_run. simpl. unfold optimized.
    apply str_truthy_true in Hne. by rewrite Hk, Hne. }
  rewrite Hres. unfold optimized_or_throw. repeat split.
  - intros resp data raw Ha Hok Hj Hnn Hc Ht. rewrite Ha. simpl.
    rewrite Hok. simpl. rewrite Hj. simpl.
    unfold first_choice. fold (content_of data). rewrite Hc.
    apply str_truthy_true in Ht. destruct data; try done; simpl; by rewrite Ht.
  - intros e Ha. by rewrite Ha.
  - intros resp Ha Hok. rewrite Ha. simpl. by rewrite Hok.
  - intros resp e Ha Hj. rewrite Ha. simpl.
    destruct (ok (ai_status resp)); [|done]. simpl. by rewrite Hj.
  - intros resp data Ha Hj Hc. rewrite Ha. simpl.
    destruct (ok (ai_status resp)); [|done]. simpl. rewrite Hj. simpl.
    unfold first_choice. fold (content_of data).
    destruct data; try done;
      (destruct (content_of _) as [[| | |raw| |]|] eqn:Ec; try done; simpl;
       rewrite (Hc raw eq_refl); done).
Qed.

Lemma optimizer_rewrites_only_on_clean_answer_witness :
  (optimizeSearchQuery lamp_shop "a nice lamp for my desk" fresh_state).1
  = Ok "lamp"%string.
Proof.
  destruct (optimizer_rewrites_only_on_clean_answer lamp_shop
              "a nice lamp for my desk" "hk" fresh_state eq_refl) as [H _].
  - discriminate.
  - apply (H {| ai_status := 200; ai_json := Ok lamp_answer |}
             lamp_answer " lamp "%string); try reflexivity; discriminate.
Defined.

(** ** The configured credentials *)

Lemma split_length (sep : ascii) (s : string) :
  List.length (split sep s) = S (occurrences sep s).
Proof.
  induction s as [|c s IH]; simpl; [done|].
  destruct (Ascii.eqb c sep); simpl; [by rewrite IH|].
  destruct (split sep s) as [|piece more]; simpl in *; [discriminate | done].
Qed.

Lemma split_no_separator (sep : ascii) (s : string) :
  occurrences sep s = 0%nat -> split sep s = [s].
Proof.
  induction s as [|c s IH]; simpl; [done|].
  destruct (Ascii.eqb c sep); simpl; [discriminate|].
  intros H. by rewrite (IH H).
Qed.

Lemma occurrences_trailing (sep : ascii) (s : string) :
  occurrences sep (s +:+ String sep EmptyString) = S (occurrences sep s).
Proof.
  induction s as [|c s IH]; simpl; [by rewrite Ascii.eqb_refl|]. rewrite IH. lia.
Qed.

Lemma split_trailing_separator (sep : ascii) (s : string) :
  last (split sep (s +:+ String sep EmptyString)) = Some EmptyString.
Proof.
  induction s as [|c s IH]; simpl; [by rewrite Ascii.eqb_refl|].
  pose proof (split_length sep (s +:+ String sep EmptyString)) as Hl.
  rewrite occurrences_trailing in Hl.
  destruct (split sep (s +:+ String sep EmptyString)) as [|piece [|next more]];
    try discriminate.
  by destruct (Ascii.eqb c sep).
Qed.

(** X5. A credential configured as a string yields one key per
    comma-separated piece: one more key than the string has commas, so never
    an empty list; every key is a string that trimming leaves as it is (no
    white space around it); and a string without a comma yields the single
    key that is the trimmed string. An empty piece (as after a trailing
    comma) yields the empty key. *)
Theorem api_keys_of_string (s : string) :
  List.length (api_keys (JStr s)) = S (occurrences "," s)
  ∧ api_keys (JStr s) ≠ []
  ∧ Forall (fun key => exists t, key = JStr t ∧ trim t = t) (api_keys (JStr s))
  ∧ (occurrences "," s = 0%nat -> api_keys (JStr s) = [JStr (trim s)])
  ∧ last (api_keys (JStr (s +:+ ","))) = Some (JStr "").
Proof.
  split; [|split; [|split; [|split]]].
  - simpl. by rewrite length_fmap, split_length.
  - apply api_keys_string_not_nil.
  - simpl. apply Forall_fmap, Forall_forall. intros piece _. simpl.
    exists (trim piece). split; [done | apply trim_idempotent].
  - intros H. simpl. by rewrite (split_no_separator _ _ H).
  - simpl. by rewrite fmap_last, (split_trailing_separator "," s).
Qed.

Lemma api_keys_of_string_witness : api_keys (JStr "  solo-key ") = [JStr "solo-key"].
Proof.
  destruct (api_keys_of_string "  solo-key ") as (_ & _ & _ & H & _).
  apply H. reflexivity.
Defined.

(** ** What a call does to the cache *)

Section LoopEnd.
Variables (w : World) (request : Json -> SearchRequest) (n : nat).

(** The loop ends in a throw only after every credential has failed, each
    having been sent one request. *)
Lemma try_keys_rejected (cacheKey : string) (cache : gmap string Json) (keys : list Json) :
  forall (i : nat) (lastError : option JsError) (st st' : St) (e : JsError),
    try_keys w request cacheKey cache n i keys lastError st = (Rejected e, st') ->
    Forall (fun k => failed (attempt (search_endpoint w (request k))) = true) keys
    ∧ st' = logged st ((fun k => SearchCall (request k)) <$> keys)
    ∧ e = match last_recorded w request i keys lastError with
          | Some x => exhausted_error n x
          | None => null_message
          end.
Proof.
  induction keys as [|k keys IH]; intros i lastError st st' e Hrun.
  - simpl in Hrun. rewrite logged_nil. simpl.
    destruct lastError; injection Hrun as <- <-; by repeat split.
  - rewrite try_keys_cons in Hrun. simpl.
    destruct (attempt (search_endpoint w (request k))) eqn:Ea; [| |discriminate].
    + apply IH in Hrun as (Hf & -> & ->). rewrite logged_app.
      split; [constructor; [by rewrite Ea | done] | done].
    + apply IH in Hrun as (Hf & -> & ->). rewrite logged_app.
      split; [constructor; [by rewrite Ea | done] | done].
Qed.

(** The outcome of the loop and the requests it sends do not depend on the
    cache it was handed, nor on the key it writes under. *)
Lemma try_keys_cache_irrelevant (key1 key2 : string) (c1 c2 : gmap string Json)
    (keys : list Json) :
  forall (i : nat) (lastError : option JsError) (st1 st2 : St),
    (try_keys w request key1 c1 n i keys lastError st1).1
    = (try_keys w request key2 c2 n i keys lastError st2).1
    ∧ exists events,
        sent (try_keys w request key1 c1 n i keys lastError st1).2 = sent st1 ++ events
        ∧ sent (try_keys w request key2 c2 n i keys lastError st2).2 = sent st2 ++ events.
Proof.
  induction keys as [|k keys IH]; intros i lastError st1 st2.
  - simpl. destruct lastError; simpl; (split; [done|]); exists []; by rewrite !app_nil_r.
  - rewrite !try_keys_cons.
    destruct (attempt (search_endpoint w (request k))) eqn:Ea.
    + destruct (IH (S i) (recorded i Forbidden) (logged st1 [SearchCall (request k)])
                  (logged st2 [SearchCall (request k)])) as (Hr & events & H1 & H2).
      split; [exact Hr|]. exists (SearchCall (request k) :: events).
      rewrite H1, H2. simpl. by rewrite <- !app_assoc.
    + destruct (IH (S i) (recorded i (Threw e)) (logged st1 [SearchCall (request k)])
                  (logged st2 [SearchCall (request k)])) as (Hr & events & H1 & H2).
      split; [exact Hr|]. exists (SearchCall (request k) :: events).
      rewrite H1, H2. simpl. by rewrite <- !app_assoc.
    + split; [done|]. exists [SearchCall (request k)]. simpl.
      by rewrite !sent_stored.
Qed.
End LoopEnd.

Lemma after_miss_outcomes (w : World) (o : Options) (query : string) (st st' : St)
    (r : Outcome Returned) :
  after_miss w o query st = (r, st') ->
  (exists e, r = Rejected e ∧ file st' = file st)
  ∨ (exists rs, r = Ok (Fresh rs)
       ∧ file st' = (if disk_writable w
                     then Stored (<[key_for o query := results_json rs]> (cache_of (file st)))
                     else file st)).
Proof.
  unfold after_miss. intros Hrun.
  destruct (key_of w o) as [key|]; [destruct (truthy key)|];
    try (injection Hrun as <- <-; left; by eexists).
  destruct r as [r|e].
  - apply try_keys_returns in Hrun as (? & ? & ? & rs & _ & _ & _ & -> & ->).
    right. exists rs. split; [done|]. by rewrite logged_app, file_stored_logged.
  - apply try_keys_rejected in Hrun as (_ & -> & _). left. by eexists.
Qed.

(** A call that throws leaves the cache file as it was. *)
Lemma failed_search_keeps_file (w : World) (o : Options) (st st' : St)
    (r : Outcome Returned) :
  searchAliExpress w o st = (r, st') ->
  (forall e, r = Rejected e -> file st' = file st)
  ∧ (forall v, r = Ok (FromCache v) -> st' = st).
Proof.
  intros Hrun.
  destruct (searchAliExpress_cases w o st)
    as [[_ E] | (query & Hq & Hne & [(v & _ & E) | (Hmiss & E)])];
    rewrite E in Hrun.
  - injection Hrun as <- <-. by split.
  - injection Hrun as <- <-. by split.
  - destruct (after_miss_outcomes _ _ _ _ _ _ Hrun) as [(e & -> & Hf) | (rs & -> & Hf)].
    + split; [by intros e' _ | done].
    + by split.
Qed.

(** X6. Whatever a call does, it leaves every cache entry under another
    key than its own as it was. A call that throws, and a call that is
    served from the cache, leave the cache file untouched; a call that
    returns fresh results replaces the file by the loaded mapping with these
    results under its key (a missing or unreadable file counting as the
    empty mapping), or leaves it untouched when the write fails. *)
Theorem search_touches_only_its_key (w : World) (o : Options) (st st' : St)
    (r : Outcome Returned) :
  searchAliExpress w o st = (r, st') ->
  (forall e, r = Rejected e -> file st' = file st)
  ∧ (forall v, r = Ok (FromCache v) -> st' = st)
  ∧ (forall rs, r = Ok (Fresh rs) ->
       exists query, q o = Some query
         ∧ file st' = (if disk_writable w
                       then Stored (<[getCacheKey query (page_of o) (sort_of o)
                                      := results_json rs]> (cache_of (file st)))
                       else file st))
  ∧ (forall query key, q o = Some query ->
       key ≠ getCacheKey query (page_of o) (sort_of o) ->
       cache_of (file st') !! key = cache_of (file st) !! key).
Proof.
  intros Hrun.
  destruct (searchAliExpress_cases w o st)
    as [[_ E] | (query & Hq & Hne & [(v & _ & E) | (Hmiss & E)])];
    rewrite E in Hrun.
  - injection Hrun as <- <-. by repeat split.
  - injection Hrun as <- <-. by repeat split.
  - destruct (after_miss_outcomes _ _ _ _ _ _ Hrun) as [(e & -> & Hf) | (rs & -> & Hf)].
    + split; [done|]. split; [done|]. split; [done|].
      intros ? ? _ _. by rewrite Hf.
    + split; [done|]. split; [done|]. split.
      * intros rs' [= <-]. by exists query.
      * intros query' key Hq' Hkey. assert (query' = query) as -> by congruence.
        rewrite Hf. destruct (disk_writable w); [|done].
        simpl. by rewrite lookup_insert_ne.
Qed.

Lemma search_touches_only_its_key_witness :
  cache_of (file (searchAliExpress lamp_shop lamp_options
                    (mkSt (Stored {[ "usb c cable|1|default"%string := JArr [] ]}) [])).2)
    !! "usb c cable|1|default"%string
  = Some (JArr []).
Proof.
  destruct (search_touches_only_its_key lamp_shop lamp_options
              (mkSt (Stored {[ "usb c cable|1|default"%string := JArr [] ]}) [])
              _ _ (surjective_pairing _)) as (_ & _ & _ & H).
  rewrite (H "a nice lamp for my desk"%string "usb c cable|1|default"%string eq_refl).
  - reflexivity.
  - discriminate.
Defined.

(** X7. A cache entry holding a falsy value ([null], [false], [0] or the
    empty string) counts as no entry: the call returns what it would return,
    and sends the requests it would send, had the entry been deleted from
    the file; and when it returns fresh results and the write goes through,
    these replace the falsy entry. *)
Theorem falsy_entry_is_a_miss (w : World) (o : Options) (query : string)
    (c : gmap string Json) (log : list Event) (v : Json) :
  q o = Some query -> query ≠ ""%string ->
  c !! getCacheKey query (page_of o) (sort_of o) = Some v -> truthy v = false ->
  let key := getCacheKey query (page_of o) (sort_of o) in
  let run := searchAliExpress w o (mkSt (Stored c) log) in
  let run' := searchAliExpress w o (mkSt (Stored (delete key c)) log) in
  run.1 = run'.1
  ∧ sent run.2 = sent run'.2
  ∧ (forall rs, run.1 = Ok (Fresh rs) -> disk_writable w = true ->
       file run.2 = Stored (<[key := results_json rs]> c)
       ∧ file run'.2 = Stored (<[key := results_json rs]> c)).
Proof.
  intros Hq Hne Hv Hfalsy key run run'.
  assert (Hmiss : hit (cache_of (file (mkSt (Stored c) log))) (key_for o query) = None).
  { unfold hit, key_for. simpl. fold key. unfold key in *. by rewrite Hv, Hfalsy. }
  assert (Hmiss' : hit (cache_of (file (mkSt (Stored (delete key c)) log)))
                     (key_for o query) = None).
  { unfold hit, key_for. simpl. fold key. by rewrite lookup_delete_eq. }
  assert (Hrun : run = after_miss w o query (mkSt (Stored c) log)).
  { by apply searchAliExpress_miss. }
  assert (Hrun' : run' = after_miss w o query (mkSt (Stored (delete key c)) log)).
  { by apply searchAliExpress_miss. }
  assert (Hsame : run.1 = run'.1 ∧ sent run.2 = sent run'.2).
  { rewrite Hrun, Hrun'. unfold after_miss.
    destruct (key_of w o) as [cfg|]; [destruct (truthy cfg)|]; try done.
    destruct (try_keys_cache_irrelevant w
                (search_request (optimized w query) (page_of o) (sort_of o))
                (List.length (api_keys cfg)) (key_for o query) (key_for o query)
                (cache_of (file (mkSt (Stored c) log)))
                (cache_of (file (mkSt (Stored (delete key c)) log)))
                (api_keys cfg) 0%nat None
                (logged (mkSt (Stored c) log) (optimizer_calls w query))
                (logged (mkSt (Stored (delete key c)) log) (optimizer_calls w query)))
      as (Hr & events & -> & ->).
    split; [exact Hr | done]. }
  destruct Hsame as [Hr Hs]. split; [exact Hr|]. split; [exact Hs|].
  intros rs Hfresh Hdisk.
  assert (Hfresh' : run'.1 = Ok (Fresh rs)) by by rewrite <- Hr.
  destruct run as [r st1] eqn:E1. destruct run' as [r' st1'] eqn:E1'.
  simpl in *. subst r r'.
  destruct (after_miss_outcomes _ _ _ _ _ _ (eq_sym Hrun)) as [(? & [=] & _) | (rs1 & [= <-] & ->)].
  destruct (after_miss_outcomes _ _ _ _ _ _ (eq_sym Hrun')) as [(? & [=] & _) | (rs2 & [= <-] & ->)].
  rewrite Hdisk. simpl. unfold key_for. fold key.
  split; [done|]. by rewrite insert_delete_eq.
Qed.

Lemma falsy_entry_is_a_miss_witness :
  (searchAliExpress lamp_shop lamp_options
     (mkSt (Stored {[ "a nice lamp for my desk|1|default"%string := JNull ]}) [])).1
  = (searchAliExpress lamp_shop lamp_options (mkSt (Stored (delete
       "a nice lamp for my desk|1|default"%string
       {[ "a nice lamp for my desk|1|default"%string := JNull ]})) [])).1.
Proof.
  apply (falsy_entry_is_a_miss lamp_shop lamp_options "a nice lamp for my desk"
           {[ "a nice lamp for my desk|1|default"%string := JNull ]} [] JNull).
  - reflexivity.
  - discriminate.
  - reflexivity.
  - reflexivity.
Defined.

(** ** The requests of one call *)

Lemma optimizer_calls_shape (w : World) (query : string) :
  exists ai, optimizer_calls w query = AiCall <$> ai ∧ (List.length ai <= 1)%nat.
Proof.
  unfold optimizer_calls. destruct (HACKCLUB_API_KEY w) as [k|].
  - destruct (str_truthy k).
    + exists [ai_request k query]. split; [done | simpl; lia].
    + exists []. split; [done | simpl; lia].
  - exists []. split; [done | simpl; lia].
Qed.

(** X8. One call makes a single pass: to what was already sent it adds at
    most one request to the rewrite endpoint, then search requests, one per
    credential of a prefix of the configured list and in the order of the
    list; these search requests all carry the same query, the decimal page
    and the sort order, and differ in the credential only. Without a truthy
    search credential no search request is sent. *)
Theorem requests_of_one_call (w : World) (o : Options) (st : St) :
  exists ai reqs optimizedQuery,
    sent (searchAliExpress w o st).2 = sent st ++ (AiCall <$> ai) ++ (SearchCall <$> reqs)
    ∧ (List.length ai <= 1)%nat
    ∧ (api_key <$> reqs) `prefix_of` from_option api_keys [] (key_of w o)
    ∧ Forall (fun r => param_q r = optimizedQuery
                       ∧ param_page r = scalar_to_string (page_of o)
                       ∧ param_sort r = sort_of o) reqs
    ∧ (truthy_opt (key_of w o) = false -> reqs = []).
Proof.
  assert (Hnone : forall s, s = st ->
            exists ai reqs optimizedQuery,
              sent s = sent st ++ (AiCall <$> ai) ++ (SearchCall <$> reqs)
              ∧ (List.length ai <= 1)%nat
              ∧ (api_key <$> reqs) `prefix_of` from_option api_keys [] (key_of w o)
              ∧ Forall (fun r => param_q r = optimizedQuery
                                 ∧ param_page r = scalar_to_string (page_of o)
                                 ∧ param_sort r = sort_of o) reqs
              ∧ (truthy_opt (key_of w o) = false -> reqs = [])).
  { intros s ->. exists [], [], ""%string. simpl. rewrite app_nil_r.
    repeat split; try done; [lia | apply prefix_nil]. }
  destruct (searchAliExpress_cases w o st)
    as [[_ E] | (query & Hq & Hne & [(v & _ & E) | (Hmiss & E)])];
    [rewrite E; by apply Hnone .. |].
  rewrite E. unfold after_miss.
  destruct (optimizer_calls_shape w query) as (ai & Hai & Hlen). rewrite Hai.
  assert (Hempty : forall e,
            exists ai0 reqs optimizedQuery,
              sent (Rejected e : Outcome Returned, logged st (AiCall <$> ai)).2
              = sent st ++ (AiCall <$> ai0) ++ (SearchCall <$> reqs)
              ∧ (List.length ai0 <= 1)%nat
              ∧ (api_key <$> reqs) `prefix_of` from_option api_keys [] (key_of w o)
              ∧ Forall (fun r => param_q r = optimizedQuery
                                 ∧ param_page r = scalar_to_string (page_of o)
                                 ∧ param_sort r = sort_of o) reqs
              ∧ (truthy_opt (key_of w o) = false -> reqs = [])).
  { intros e. exists ai, [], ""%string. simpl. rewrite app_nil_r.
    repeat split; try done. apply prefix_nil. }
  destruct (key_of w o) as [cfg|]; [|apply Hempty].
  destruct (truthy cfg) eqn:Et; [|apply Hempty].
  set (request := search_request (optimized w query) (page_of o) (sort_of o)).
  destruct (try_keys_log w request (key_for o query) (cache_of (file st))
              (List.length (api_keys cfg)) (api_keys cfg) 0%nat None
              (logged st (AiCall <$> ai))) as (used & Hp & ->).
  exists ai, (request <$> used), (optimized w query). simpl.
  split; [by rewrite <- app_assoc, <- list_fmap_compose|].
  split; [done|]. split; [by unfold request; rewrite api_key_requests|].
  split; [|by rewrite Et]. apply Forall_fmap, Forall_forall. by intros.
Qed.

(** ** The failures of a call *)

Lemma api_keys_nil (cfg : Json) : api_keys cfg = [] -> cfg = JArr [].
Proof.
  destruct cfg; try discriminate.
  - intros H. by destruct (api_keys_string_not_nil s).
  - simpl. by intros ->.
Qed.

Lemma last_recorded_failing (w : World) (request : Json -> SearchRequest) (keys : list Json) :
  keys ≠ [] ->
  Forall (fun k => failed (attempt (search_endpoint w (request k))) = true) keys ->
  forall i lastError, exists e, last_recorded w request i keys lastError = Some e.
Proof.
  intros Hne Hf i lastError.
  destruct (last_is_Some keys) as [_ H]. destruct (H Hne) as [k Hk].
  apply last_Some in Hk as [keys' ->]. rewrite last_recorded_snoc.
  apply recorded_failed. rewrite Forall_app, Forall_singleton in Hf. by destruct Hf.
Qed.

(** The errors a call can end with. *)
Lemma searchAliExpress_rejections (w : World) (o : Options) (st st' : St) (e : JsError) :
  searchAliExpress w o st = (Rejected e, st') ->
  (e = query_required ∧ (q o = None ∨ q o = Some ""%string) ∧ st' = st)
  ∨ (e = key_required ∧ truthy_opt (key_of w o) = false
     ∧ search_calls (sent st') = search_calls (sent st))
  ∨ (e = null_message ∧ key_of w o = Some (JArr [])
     ∧ search_calls (sent st') = search_calls (sent st))
  ∨ (exists cfg lastError,
       key_of w o = Some cfg ∧ truthy cfg = true ∧ api_keys cfg ≠ []
       ∧ e = exhausted_error (List.length (api_keys cfg)) lastError
       ∧ api_key <$> search_calls (sent st')
         = (api_key <$> search_calls (sent st)) ++ api_keys cfg).
Proof.
  intros Hrun.
  destruct (searchAliExpress_cases w o st)
    as [[Hq E] | (query & Hq & Hne & [(v & _ & E) | (Hmiss & E)])];
    rewrite E in Hrun; try discriminate.
  - injection Hrun as <- <-. by left.
  - unfold after_miss in Hrun. right.
    assert (Hlog : search_calls (sent (logged st (optimizer_calls w query)))
                   = search_calls (sent st)).
    { simpl. by rewrite search_calls_app, search_calls_optimizer, app_nil_r. }
    destruct (key_of w o) as [cfg|] eqn:Ek.
    2:{ injection Hrun as <- <-. by left. }
    destruct (truthy cfg) eqn:Et.
    2:{ injection Hrun as <- <-. left. simpl. by rewrite Et. }
    right. apply try_keys_rejected in Hrun as (Hf & -> & ->).
    destruct (api_keys cfg) as [|k keys] eqn:Ekeys.
    + left. apply api_keys_nil in Ekeys as ->.
      split; [done|]. split; [done|]. by rewrite fmap_nil, logged_nil.
    + right. exists cfg.
      destruct (last_recorded_failing w _ (k :: keys) ltac:(done) Hf 0%nat None) as [x Hx].
      exists x. rewrite Hx, Ekeys. split; [done|]. split; [done|]. split; [done|].
      split; [done|]. rewrite logged_app. unfold logged. cbn [sent].
      rewrite !search_calls_app, search_calls_optimizer, search_calls_requests.
      rewrite app_nil_l, fmap_app. by rewrite api_key_requests.
Qed.

(** X9. A call can fail in four ways only, and never writes the cache file
    when it does: with the query-required error, nothing having been done;
    with the key-required error, no search request having been sent; with
    the [TypeError] of the [null] dereference, when the credentials are the
    empty array; or with the exhaustion error, which counts the configured
    credentials, each of them having been sent exactly one search request,
    in order. *)
Theorem search_fails_in_four_ways (w : World) (o : Options) (st st' : St) (e : JsError) :
  searchAliExpress w o st = (Rejected e, st') ->
  file st' = file st
  ∧ ((e = mkError Error_ "Search query (q) is required" ∧ st' = st)
     ∨ (e = mkError Error_ "RapidAPI key is required. Set RAPIDAPI_KEY in .env file"
        ∧ search_calls (sent st') = search_calls (sent st))
     ∨ (e = mkError TypeError_ "Cannot read properties of null (reading 'message')"
        ∧ key_of w o = Some (JArr [])
        ∧ search_calls (sent st') = search_calls (sent st))
     ∨ (exists cfg lastError,
          key_of w o = Some cfg ∧ api_keys cfg ≠ []
          ∧ e = mkError Error_
                  ("Failed to search AliExpress with all "
                   +:+ pretty (Z.of_nat (List.length (api_keys cfg)))
                   +:+ " API key(s). Last error: " +:+ message lastError)
          ∧ api_key <$> search_calls (sent st')
            = (api_key <$> search_calls (sent st)) ++ api_keys cfg)).
Proof.
  intros Hrun. split.
  - destruct (failed_search_keeps_file w o st st' (Rejected e) Hrun) as [H _].
    by apply (H e).
  - destruct (searchAliExpress_rejections _ _ _ _ _ Hrun)
      as [(-> & _ & ->) | [(-> & _ & H) | [(-> & Hk & H) | (cfg & x & Hk & _ & Hne & -> & H)]]].
    + by left.
    + right. by left.
    + right. right. by left.
    + right. right. right. by exists cfg, x.
Qed.

Lemma search_fails_in_four_ways_witness :
  file (searchAliExpress refusing_world lamp_options fresh_state).2 = Missing.
Proof.
  destruct (search_fails_in_four_ways refusing_world lamp_options fresh_state
              (searchAliExpress refusing_world lamp_options fresh_state).2
              (mkError Error_
                 "Failed to search AliExpress with all 4 API key(s). Last error: API Error: quota"))
    as [H _].
  - reflexivity.
  - exact H.
Defined.

(** ** The route *)

(** After a call has returned, with its results written when it had any,
    the same options are served from the cache. *)
Lemma cached_after_success (w w' : World) (o : Options) (st st1 : St) (r : Returned) :
  searchAliExpress w o st = (Ok r, st1) ->
  (forall rs, r = Fresh rs -> disk_writable w = true) ->
  searchAliExpress w' o st1 = (Ok (FromCache (wire r)), st1).
Proof.
  intros Hrun Hdisk. destruct r as [rs | v].
  - destruct (fresh_result_stored _ _ _ _ _ Hrun) as (query & Hq & Hne & _ & Hfile).
    rewrite (Hdisk rs eq_refl) in Hfile.
    apply searchAliExpress_hit with query; try done.
    rewrite Hfile. simpl. apply hit_lookup. split; [apply lookup_insert_eq | done].
  - destruct (searchAliExpress_cases w o st)
      as [[_ E] | (query & Hq & Hne & [(v' & Hv & E) | (Hmiss & E)])];
      rewrite E in Hrun; try discriminate.
    + injection Hrun as <- <-. by apply searchAliExpress_hit with query.
    + destruct (after_miss_outcomes _ _ _ _ _ _ Hrun) as [(? & [=] & _) | (? & [=] & _)].
Qed.

(** X10. A request whose key has a truthy entry in the cache file is
    answered 200 with that entry as the body, whatever the entry is, in any
    world: no request is sent, the state is unchanged, and no credential
    needs to be configured, the credential test coming after the lookup. *)
Theorem cached_request_needs_no_credential (w : World) (query : Query) (q0 : string)
    (v : Json) (st : St) :
  query_q query = Some q0 -> q0 ≠ ""%string ->
  cache_of (file st)
    !! getCacheKey q0 (page_argument (query_page query)) (sort_argument (query_sort query))
  = Some v ->
  truthy v = true ->
  search_route w query st = ({| http_status := 200; http_body := v |}, st).
Proof.
  intros Hq Hne Hv Ht. unfold search_route. rewrite Hq.
  pose proof Hne as Hne'. apply str_truthy_true in Hne'. rewrite Hne'. simpl.
  rewrite (searchAliExpress_hit w (route_options q0 query) q0 v st); try done.
  apply hit_lookup. by split.
Qed.

Lemma cached_request_needs_no_credential_witness :
  search_route bare_world lamp_query
    (mkSt (Stored {[ "lamp|1|default"%string := JStr "stale" ]}) [])
  = ({| http_status := 200; http_body := JStr "stale" |},
     mkSt (Stored {[ "lamp|1|default"%string := JStr "stale" ]}) []).
Proof.
  apply (cached_request_needs_no_credential bare_world lamp_query "lamp").
  - reflexivity.
  - discriminate.
  - reflexivity.
  - reflexivity.
Defined.

(** X11. When the route has answered 200 and the disk takes writes, the
    same request is answered again with the very same response, status and
    body, in any world, and the state stays as the first answer left it: the
    repeated request sends nothing. *)
Theorem route_repeats_its_answer (w w' : World) (query : Query) (st st1 : St)
    (resp : HttpResponse) :
  search_route w query st = (resp, st1) ->
  http_status resp = 200 ->
  disk_writable w = true ->
  search_route w' query st1 = (resp, st1).
Proof.
  unfold search_route. intros Hrun Hstatus Hdisk.
  destruct (query_q query) as [q0|]; [|by injection Hrun as <- <-].
  destruct (negb (str_truthy q0)); [by injection Hrun as <- <-|].
  destruct (searchAliExpress w (route_options q0 query) st) as [[r|e] st2] eqn:E;
    injection Hrun as <- <-; [|discriminate].
  rewrite (cached_after_success w w' _ _ _ _ E); [done|]. by intros.
Qed.

Lemma route_repeats_its_answer_witness :
  search_route light_shop lamp_query (search_route lamp_shop lamp_query fresh_state).2
  = ({| http_status := 200; http_body := results_json lamp_results |},
     (search_route lamp_shop lamp_query fresh_state).2).
Proof.
  apply (route_repeats_its_answer lamp_shop light_shop lamp_query fresh_state).
  - vm_compute. reflexivity.
  - reflexivity.
  - reflexivity.
Defined.

Lemma api_keys_string_length (s : string) :
  List.length (api_keys (JStr s)) = S (occurrences "," s).
Proof. simpl. by rewrite length_fmap, split_length. Qed.

(** X12. The route never throws and answers in one of four ways. It
    answers 400 exactly when the query parameter is absent or empty, and
    then nothing was done. Otherwise it answers 200 with the serialised
    result of the pipeline, or 500 with the message of the key-required
    error, no search request having been sent, or 500 with the exhaustion
    message, which counts the comma-separated credentials of the environment
    string, every one of them having been tried once. Called
    through the route, whose credentials come from the environment string,
    the pipeline can fail in no other way. *)
Theorem route_answers (w : World) (query : Query) (st : St) :
  let resp := (search_route w query st).1 in
  let st' := (search_route w query st).2 in
  ((query_q query = None ∨ query_q query = Some ""%string)
   ∧ http_status resp = 400 ∧ st' = st)
  ∨ exists q0, query_q query = Some q0 ∧ q0 ≠ ""%string
      ∧ ((exists r, searchAliExpress w (route_options q0 query) st = (Ok r, st')
            ∧ http_status resp = 200 ∧ http_body resp = wire r)
         ∨ (http_status resp = 500
            ∧ http_body resp
              = error_body "RapidAPI key is required. Set RAPIDAPI_KEY in .env file"
            ∧ (RAPIDAPI_KEY w = None ∨ RAPIDAPI_KEY w = Some ""%string)
            ∧ file st' = file st
            ∧ search_calls (sent st') = search_calls (sent st))
         ∨ (exists keys lastError,
              RAPIDAPI_KEY w = Some keys
              ∧ http_status resp = 500
              ∧ http_body resp
                = error_body ("Failed to search AliExpress with all "
                              +:+ pretty (Z.of_nat (S (occurrences "," keys)))
                              +:+ " API key(s). Last error: " +:+ message lastError)
              ∧ file st' = file st
              ∧ api_key <$> search_calls (sent st')
                = (api_key <$> search_calls (sent st)) ++ api_keys (JStr keys))).
Proof.
  unfold search_route.
  destruct (query_q query) as [q0|]; [|left; by repeat split; try left].
  destruct (str_truthy q0) eqn:Eq; simpl.
  2:{ left. split; [|done]. right. f_equal.
      unfold str_truthy in Eq. by destruct (String.eqb_spec q0 ""). }
  right. exists q0. apply str_truthy_true in Eq. split; [done|]. split; [done|].
  destruct (searchAliExpress w (route_options q0 query) st) as [[r|e] st2] eqn:E; simpl.
  - left. by exists r.
  - right.
    pose proof (failed_search_keeps_file _ _ _ _ _ E) as [Hfile _].
    specialize (Hfile e eq_refl).
    destruct (searchAliExpress_rejections _ _ _ _ _ E)
      as [(_ & [Hq | Hq] & _) | [(-> & Hk & H) | [(_ & Hk & _) | (cfg & x & Hk & _ & _ & -> & H)]]];
      try discriminate.
    + injection Hq as ->. done.
    + left. repeat split; try done. unfold key_of in Hk. simpl in Hk.
      destruct (RAPIDAPI_KEY w) as [s|]; [right | by left]. simpl in Hk.
      f_equal. unfold str_truthy in Hk. by destruct (String.eqb_spec s "").
    + unfold key_of in Hk. simpl in Hk. by destruct (RAPIDAPI_KEY w).
    + right. unfold key_of in Hk. simpl in Hk.
      destruct (RAPIDAPI_KEY w) as [s|]; [|discriminate]. injection Hk as <-.
      exists s, x. unfold exhausted_error. rewrite api_keys_string_length.
      by repeat split.
Qed.

(** ** The cache key *)

Lemma string_app_assoc (a b c : string) : (a +:+ b) +:+ c = a +:+ (b +:+ c).
Proof.
  induction a as [|x a IH]; [done|].
  change (String x ((a +:+ b) +:+ c) = String x (a +:+ (b +:+ c))). by rewrite IH.
Qed.

(** Cutting at the first bar recovers both sides. *)
Lemma first_bar_cut (a1 a2 r1 r2 : string) :
  occurrences "|" a1 = 0%nat -> occurrences "|" a2 = 0%nat ->
  a1 +:+ String "|" r1 = a2 +:+ String "|" r2 -> a1 = a2 ∧ r1 = r2.
Proof.
  revert a2. induction a1 as [|c a1 IH]; intros [|c' a2]; simpl.
  - intros _ _ E. by injection E as ->.
  - intros _ H E. injection E as <- _. by rewrite Ascii.eqb_refl in H.
  - intros H _ E. injection E as -> _. by rewrite Ascii.eqb_refl in H.
  - intros H1 H2 E. injection E as <- E. destruct (Ascii.eqb c "|"); [discriminate|].
    destruct (IH a2 H1 H2 E) as [-> ->]. done.
Qed.

Lemma pretty_N_go_all_chars (test : ascii -> bool) (x : N) :
  (forall d, test (pretty_N_char d) = true) ->
  forall s, all_chars test s = true -> all_chars test (pretty_N_go x s) = true.
Proof.
  intros Hd. induction (N.lt_wf_0 x) as [x _ IH]; intros s Hs.
  assert (x = 0 ∨ 0 < x)%N as [->|Hx] by lia.
  - by rewrite pretty_N_go_0.
  - rewrite pretty_N_go_step by done. apply IH.
    + by apply N.div_lt.
    + simpl. by rewrite Hd, Hs.
Qed.

Lemma pretty_Z_numeric (z : Z) : all_chars numeric (pretty z) = true.
Proof.
  assert (Hd : forall d, numeric (pretty_N_char d) = true).
  { intros d. unfold pretty_N_char. by repeat case_match. }
  assert (Hp : forall p : positive, all_chars numeric (pretty p) = true).
  { intros p. unfold pretty, pretty_positive, pretty, pretty_N.
    case_decide; [done|]. by apply pretty_N_go_all_chars. }
  destruct z as [|p|p]; [done | apply Hp |].
  change (pretty (Z.neg p)) with ("-" +:+ pretty p). simpl. apply Hp.
Qed.

Lemma numeric_no_bar (s : string) : all_chars numeric s = true -> occurrences "|" s = 0%nat.
Proof.
  induction s as [|c s IH]; simpl; [done|].
  intros [Hc Hs]%andb_true_iff. rewrite (IH Hs).
  destruct (Ascii.eqb_spec c "|") as [->|]; [discriminate | done].
Qed.

Lemma number_to_string_no_bar (n : JsNumber) : occurrences "|" (number_to_string n) = 0%nat.
Proof. destruct n; [done|]. apply numeric_no_bar, pretty_Z_numeric. Qed.

Lemma number_to_string_inj (n1 n2 : JsNumber) :
  number_to_string n1 = number_to_string n2 -> n1 = n2.
Proof.
  destruct n1 as [|z1], n2 as [|z2]; simpl; intros H; try done.
  - pose proof (pretty_Z_numeric z2) as Hn. by rewrite <- H in Hn.
  - pose proof (pretty_Z_numeric z1) as Hn. by rewrite H in Hn.
  - f_equal. by apply (inj pretty).
Qed.

(** X13. For numeric pages, the cache key tells requests apart as long as
    the queries contain no [|]: two such requests with the same key have the
    same query, the same page and the same sort order. A query may contain a
    [|], though, and then keys collide: the request for [q|p|s] on page [p']
    sorted by [t] has the key of the request for [q] on page [p] sorted by
    [s|p'|t]. *)
Theorem cache_key_injective_without_bar (q1 q2 s1 s2 : string) (n1 n2 : JsNumber) :
  (occurrences "|" q1 = 0%nat -> occurrences "|" q2 = 0%nat ->
   getCacheKey q1 (SNum n1) s1 = getCacheKey q2 (SNum n2) s2 ->
   q1 = q2 ∧ n1 = n2 ∧ s1 = s2)
  ∧ getCacheKey (q1 +:+ "|" +:+ number_to_string n1 +:+ "|" +:+ s1) (SNum n2) s2
    = getCacheKey q1 (SNum n1) (s1 +:+ "|" +:+ number_to_string n2 +:+ "|" +:+ s2).
Proof.
  split.
  - unfold getCacheKey. simpl. intros H1 H2 E.
    change (q1 +:+ String "|" (number_to_string n1 +:+ String "|" s1)
            = q2 +:+ String "|" (number_to_string n2 +:+ String "|" s2)) in E.
    apply first_bar_cut in E as [-> E]; try done.
    apply first_bar_cut in E as [E ->]; try apply number_to_string_no_bar.
    by apply number_to_string_inj in E as ->.
  - unfold getCacheKey. simpl. by rewrite !string_app_assoc.
Qed.

Lemma cache_key_injective_without_bar_witness :
  ("lamp" = "lamp" ∧ Int 1 = Int 1 ∧ "default" = "default")%string
  ∧ getCacheKey "lamp|1|orders" (SNum (Int 2)) "newest"
    = getCacheKey "lamp" (SNum (Int 1)) "orders|2|newest".
Proof.
  split.
  - apply (cache_key_injective_without_bar "lamp" "lamp" "default" "default" (Int 1) (Int 1));
      reflexivity.
  - apply (cache_key_injective_without_bar "lamp" "lamp" "orders" "newest" (Int 1) (Int 2)).
Defined.

(** ** The earlier versions *)

Lemma single_run (w : World) (o : Options) (query : string) (key : Json) (st : St) :
  q o = Some query -> query ≠ ""%string -> key_of w o = Some key -> truthy key = true ->
  Single.searchAliExpress w o st
  = (match search_endpoint w (search_request query (page_of o) (sort_of o) key)
           ≫= read_response_plain with
     | Ok rs => Ok rs
     | Rejected cause => Rejected (Single.wrapped cause)
     end,
     logged st [SearchCall (search_request query (page_of o) (sort_of o) key)]).
Proof.
  intros Hq Hne%str_truthy_true Hk Ht. unfold Single.searchAliExpress.
  rewrite Hq, Hne, Hk, Ht. simpl. unfold mbind at 1, M_bind, fetch_search. simpl.
  by destruct (search_endpoint w _ ≫= read_response_plain).
Qed.

(** X14. The single-credential version validates before it sends anything:
    without a query it throws the query-required error, and with a query
    but no truthy credential the key-required error, the state being
    untouched in both cases. Otherwise it sends exactly one search request,
    carrying the query as given; it returns the projected results, or throws
    one [Error] whose message is the message of the cause behind the prefix
    [Failed to search AliExpress: ]. It never touches the cache file. *)
Theorem single_search_outcomes (w : World) (o : Options) (st : St) :
  file (Single.searchAliExpress w o st).2 = file st
  ∧ (q o = None ∨ q o = Some ""%string ->
       Single.searchAliExpress w o st = (Rejected query_required, st))
  ∧ (forall query, q o = Some query -> query ≠ ""%string ->
       truthy_opt (key_of w o) = false ->
       Single.searchAliExpress w o st = (Rejected key_required, st))
  ∧ (forall query key, q o = Some query -> query ≠ ""%string ->
       key_of w o = Some key -> truthy key = true ->
       let request := search_request query (page_of o) (sort_of o) key in
       sent (Single.searchAliExpress w o st).2 = sent st ++ [SearchCall request]
       ∧ (forall rs, (Single.searchAliExpress w o st).1 = Ok rs <->
            search_endpoint w request ≫= read_response_plain = Ok rs)
       ∧ (forall e, (Single.searchAliExpress w o st).1 = Rejected e <->
            exists cause, search_endpoint w request ≫= read_response_plain = Rejected cause
              ∧ e = mkError Error_ ("Failed to search AliExpress: " +:+ message cause))).
Proof.
  assert (Hq0 : q o = None ∨ q o = Some ""%string ->
            Single.searchAliExpress w o st = (Rejected query_required, st)).
  { unfold Single.searchAliExpress. by intros [-> | ->]. }
  assert (Hk0 : forall query, q o = Some query -> query ≠ ""%string ->
            truthy_opt (key_of w o) = false ->
            Single.searchAliExpress w o st = (Rejected key_required, st)).
  { intros query Hq Hne%str_truthy_true Hk. unfold Single.searchAliExpress.
    rewrite Hq, Hne. simpl.
    destruct (key_of w o) as [key|]; [|done]. simpl in Hk. by rewrite Hk. }
  split; [|split; [exact Hq0|split; [exact Hk0|]]].
  - destruct (q o) as [query|] eqn:Hq; [|by rewrite Hq0; [|left]].
    destruct (String.eqb_spec query "") as [->|Hne]; [by rewrite Hq0; [|right]|].
    destruct (key_of w o) as [key|] eqn:Hk; [|by rewrite (Hk0 query)].
    destruct (truthy key) eqn:Ht; [|by rewrite (Hk0 query)].
    by rewrite (single_run w o query key st).
  - intros query key Hq Hne Hk Ht request.
    rewrite (single_run w o query key st Hq Hne Hk Ht). fold request. simpl.
    split; [done|].
    destruct (search_endpoint w request ≫= read_response_plain) as [rs|cause].
    + split; [done|]. intros e. split; [discriminate | by intros (? & [=] & _)].
    + split; [done|]. intros e. split.
      * intros [= <-]. by exists cause.
      * by intros (? & [= <-] & ->).
Qed.

Lemma single_search_outcomes_witness :
  Single.searchAliExpress bare_world lamp_options fresh_state
  = (Rejected key_required, fresh_state).
Proof.
  destruct (single_search_outcomes bare_world lamp_options fresh_state) as (_ & _ & H & _).
  apply (H "a nice lamp for my desk"%string); [reflexivity | discriminate | reflexivity].
Defined.

Lemma rotating_run_one_key (w : World) (o : Options) (query : string) (cfg : Json) (st : St) :
  q o = Some query -> query ≠ ""%string -> key_of w o = Some cfg -> truthy cfg = true ->
  api_keys cfg = [cfg] ->
  Rotating.searchAliExpress w o st
  = (match Rotating.attempt
             (search_endpoint w (search_request query (page_of o) (sort_of o) cfg)) with
     | Succeeded rs => Ok rs
     | a => Rejected (exhausted_error 1 (default null_message (recorded 0 a)))
     end,
     logged st [SearchCall (search_request query (page_of o) (sort_of o) cfg)]).
Proof.
  intros Hq Hne%str_truthy_true Hk Ht Hkeys. unfold Rotating.searchAliExpress.
  rewrite Hq, Hne, Hk, Ht, Hkeys. simpl. unfold mbind at 1, M_bind, fetch_search. simpl.
  by destruct (Rotating.attempt _).
Qed.

(** X15. Configured with a credential that normalises to itself alone, the
    rotating version sends the very request the single-credential version
    sends and leaves the same state; it returns results exactly when that
    one does, and the same ones; and when it fails after the validation it
    reports the exhaustion of one credential instead of the wrapped cause. *)
Theorem rotating_with_one_key_matches_single (w : World) (o : Options) (st : St)
    (cfg : Json) :
  key_of w o = Some cfg -> api_keys cfg = [cfg] ->
  (Rotating.searchAliExpress w o st).2 = (Single.searchAliExpress w o st).2
  ∧ (forall rs, (Rotating.searchAliExpress w o st).1 = Ok rs
                <-> (Single.searchAliExpress w o st).1 = Ok rs)
  ∧ (forall e, (Rotating.searchAliExpress w o st).1 = Rejected e ->
       e = query_required ∨ e = key_required
       ∨ exists lastError, e = exhausted_error 1 lastError).
Proof.
  intros Hk Hkeys.
  destruct (q o) as [query|] eqn:Hq.
  2:{ unfold Rotating.searchAliExpress, Single.searchAliExpress. rewrite Hq.
      repeat split; try done. intros e [= <-]. by left. }
  destruct (String.eqb_spec query "") as [->|Hne].
  { unfold Rotating.searchAliExpress, Single.searchAliExpress. rewrite Hq.
    repeat split; try done. intros e [= <-]. by left. }
  destruct (truthy cfg) eqn:Ht.
  2:{ unfold Rotating.searchAliExpress, Single.searchAliExpress.
      apply str_truthy_true in Hne. rewrite Hq, Hne, Hk, Ht.
      repeat split; try done. intros e [= <-]. right. by left. }
  rewrite (rotating_run_one_key w o query cfg st Hq Hne Hk Ht Hkeys).
  rewrite (single_run w o query cfg st Hq Hne Hk Ht).
  set (r := search_endpoint w (search_request query (page_of o) (sort_of o) cfg)).
  split; [done|]. simpl. unfold Rotating.attempt.
  destruct r as [resp|e0]; simpl.
  - destruct (status resp =? 403) eqn:Es.
    + assert (Hno : ok (status resp) = false).
      { apply Z.eqb_eq in Es. unfold ok. by rewrite Es. }
      unfold read_response_plain. rewrite Hno. simpl. split.
      * intros rs. split; [discriminate | by destruct (text resp)].
      * intros e [= <-]. right. right. by eexists.
    + destruct (read_response_plain resp) as [rs|e1]; simpl.
      * split; [done|]. discriminate.
      * split; [done|]. intros e [= <-]. right. right. by eexists.
  - split; [done|]. intros e [= <-]. right. right. by eexists.
Qed.

Lemma rotating_with_one_key_matches_single_witness :
  (Rotating.searchAliExpress (lamp_world None (Some "good") "" lamp_body true)
     lamp_options fresh_state).2
  = (Single.searchAliExpress (lamp_world None (Some "good") "" lamp_body true)
       lamp_options fresh_state).2.
Proof.
  apply (rotating_with_one_key_matches_single
           (lamp_world None (Some "good") "" lamp_body true) lamp_options fresh_state
           (JStr "good")); reflexivity.
Defined.

Lemma project_unfold (item : Json) :
  item ≠ JNull ->
  project item
  = (image ← with_scheme (opt_chain "image" (prop "item" item));
     url ← with_scheme (opt_chain "itemUrl" (prop "item" item));
     Ok {| title := opt_chain "title" (prop "item" item);
           price := opt_chain "promotionPrice"
                      (opt_chain "def" (opt_chain "sku" (prop "item" item)));
           image := image; url := url |}).
Proof. by destruct item. Qed.

Lemma project_plain_unfold (item : Json) :
  item ≠ JNull ->
  project_plain item
  = Ok {| title := opt_chain "title" (prop "item" item);
          price := opt_chain "promotionPrice"
                     (opt_chain "def" (opt_chain "sku" (prop "item" item)));
          image := opt_chain "image" (prop "item" item);
          url := opt_chain "itemUrl" (prop "item" item) |}.
Proof. by destruct item. Qed.

(** X16. The projection of the cached version agrees with the earlier one
    on [title] and [price], and its [image] and [url] are those of the
    earlier one put through [v ? `https:${v}` : v]. It returns whenever the
    earlier one returns with, for image and url, a falsy value or a string. *)
Theorem project_adds_only_the_scheme (item : Json) :
  (forall r, project item = Ok r ->
     exists r0, project_plain item = Ok r0
       ∧ title r = title r0 ∧ price r = price r0
       ∧ with_scheme (image r0) = Ok (image r)
       ∧ with_scheme (url r0) = Ok (url r))
  ∧ (forall r0, project_plain item = Ok r0 ->
       (truthy_opt (image r0) = false ∨ exists s, image r0 = Some (JStr s)) ->
       (truthy_opt (url r0) = false ∨ exists s, url r0 = Some (JStr s)) ->
       exists r, project item = Ok r).
Proof.
  assert (Hconv : forall v, truthy_opt v = false ∨ (exists s, v = Some (JStr s)) ->
            exists v', with_scheme v = Ok v').
  { intros v [Hf | [s ->]].
    - destruct v as [j|]; simpl in *; [rewrite Hf|]; by eexists.
    - simpl. destruct (str_truthy s); by eexists. }
  assert (Hnull : item = JNull ∨ item ≠ JNull) by (destruct item; by (left + right)).
  destruct Hnull as [-> | Hnn]; [by split|].
  rewrite (project_unfold item Hnn), (project_plain_unfold item Hnn). split.
  - intros r Hr.
    destruct (with_scheme (opt_chain "image" _)) as [i|] eqn:Ei; [|discriminate].
    destruct (with_scheme (opt_chain "itemUrl" _)) as [u|] eqn:Eu; [|discriminate].
    injection Hr as <-. eexists. split; [reflexivity|]. by repeat split.
  - intros r0 [= <-] Hi Hu.
    destruct (Hconv _ Hi) as [i Ei]. destruct (Hconv _ Hu) as [u Eu].
    cbn [image url] in Ei, Eu. rewrite Ei, Eu. by eexists.
Qed.

Lemma project_adds_only_the_scheme_witness :
  exists r0, project_plain (entry "Desk lamp" "//ae01.alicdn.com/kf/a.jpg" 12) = Ok r0
    ∧ with_scheme (image r0) = Ok (Some (JStr "https://ae01.alicdn.com/kf/a.jpg")).
Proof.
  destruct (project_adds_only_the_scheme (entry "Desk lamp" "//ae01.alicdn.com/kf/a.jpg" 12))
    as [H _].
  destruct (H (lamp_item "Desk lamp" "https://ae01.alicdn.com/kf/a.jpg" 12) eq_refl)
    as (r0 & Hr0 & _ & _ & Hi & _).
  by exists r0.
Defined.

(** ** Where fresh results come from *)

(** X17. Results that a call has built itself are at most three, and they
    are the projection of the body of a 2xx response without a truthy error
    field, received for the last search request the call has sent, which
    carried one of the configured credentials. *)
Theorem fresh_results_come_from_a_response (w : World) (o : Options) (st st' : St)
    (rs : list ResultItem) :
  searchAliExpress w o st = (Ok (Fresh rs), st') ->
  (List.length rs <= 3)%nat
  ∧ exists cfg req resp data,
      key_of w o = Some cfg ∧ api_key req ∈ api_keys cfg
      ∧ last (search_calls (sent st')) = Some req
      ∧ search_endpoint w req = Ok resp
      ∧ ok (status resp) = true ∧ json resp = Ok data
      ∧ truthy_opt (prop "error" data) = false
      ∧ extract_results data = Ok rs.
Proof.
  intros Hrun.
  destruct (searchAliExpress_cases w o st)
    as [[_ E] | (query & Hq & Hne & [(v & _ & E) | (Hmiss & E)])];
    rewrite E in Hrun; try discriminate.
  unfold after_miss in Hrun.
  destruct (key_of w o) as [cfg|]; [|discriminate].
  destruct (truthy cfg); [|discriminate].
  set (request := search_request (optimized w query) (page_of o) (sort_of o)) in *.
  apply try_keys_returns in Hrun as (failing & k & rest & rs' & Hkeys & _ & Hk & [= <-] & ->).
  unfold attempt in Hk.
  destruct (search_endpoint w (request k)) as [resp|] eqn:Er; [|discriminate].
  destruct (status resp =? 403); [discriminate|].
  destruct (read_response resp) as [rs'|] eqn:Eread; [|discriminate].
  injection Hk as ->.
  apply read_response_ok in Eread as (data & Hok & Hj & _ & He & Hx).
  split; [by apply (extract_results_at_most_three data)|].
  exists cfg, (request k), resp, data. split; [done|]. split.
  { rewrite Hkeys. simpl. apply elem_of_app. right. apply elem_of_cons. by left. }
  split; [|done].
  rewrite sent_stored, logged_app. unfold logged. cbn [sent].
  rewrite !search_calls_app, search_calls_optimizer, search_calls_requests.
  rewrite fmap_app. simpl. by rewrite !app_assoc, last_snoc.
Qed.

Lemma fresh_results_come_from_a_response_witness : (List.length lamp_results <= 3)%nat.
Proof.
  destruct (fresh_results_come_from_a_response lamp_shop lamp_options fresh_state
              (searchAliExpress lamp_shop lamp_options fresh_state).2 lamp_results)
    as [H _].
  - vm_compute. reflexivity.
  - exact H.
Defined.

(** ** The loop of the rotating version *)

Lemma rotating_try_keys_cons (w : World) (request : Json -> SearchRequest) (n i : nat)
    (k : Json) (rest : list Json) (lastError : option JsError) (st : St) :
  Rotating.try_keys w request n i (k :: rest) lastError st
  = match Rotating.attempt (search_endpoint w (request k)) with
    | Succeeded results => (Ok results, logged st [SearchCall (request k)])
    | a => Rotating.try_keys w request n (S i) rest (recorded i a)
             (logged st [SearchCall (request k)])
    end.
Proof.
  simpl. unfold mbind, M_bind, fetch_search; simpl.
  by destruct (Rotating.attempt (search_endpoint w (request k))).
Qed.

Lemma rotating_try_keys_failing (w : World) (request : Json -> SearchRequest) (n : nat)
    (failing rest : list Json) :
  Forall (fun k => failed (Rotating.attempt (search_endpoint w (request k))) = true)
    failing ->
  forall (i : nat) (lastError : option JsError) (st : St),
    exists lastError',
      Rotating.try_keys w request n i (failing ++ rest) lastError st
      = Rotating.try_keys w request n (i + List.length failing) rest lastError'
          (logged st ((fun k => SearchCall (request k)) <$> failing))
      ∧ (failing = [] -> lastError' = lastError)
      ∧ (failing ≠ [] -> is_Some lastError').
Proof.
  induction 1 as [|k failing Hk _ IH]; intros i lastError st.
  - exists lastError. simpl. by rewrite Nat.add_0_r, logged_nil.
  - change ((k :: failing) ++ rest) with (k :: (failing ++ rest)).
    rewrite rotating_try_keys_cons.
    destruct (Rotating.attempt (search_endpoint w (request k))) eqn:Ea; try discriminate.
    + destruct (IH (S i) (recorded i Forbidden) (logged st [SearchCall (request k)]))
        as (le & -> & Hnil & Hsome).
      exists le. rewrite logged_app. split; [f_equal; simpl; lia|]. split; [done|].
      intros _. destruct failing; [rewrite Hnil by done; by eexists | by apply Hsome].
    + destruct (IH (S i) (recorded i (Threw e)) (logged st [SearchCall (request k)]))
        as (le & -> & Hnil & Hsome).
      exists le. rewrite logged_app. split; [f_equal; simpl; lia|]. split; [done|].
      intros _. destruct failing; [rewrite Hnil by done; by eexists | by apply Hsome].
Qed.

(** X18. In the rotating version, with a query and a truthy credential
    that normalises to [failing ++ k :: rest]: if the attempts with the
    credentials of [failing] all fail and the one with [k] succeeds, the
    call returns the results of [k], having sent one request per credential
    of [failing ++ [k]], in order, and none for [rest]; if the attempts with
    all configured credentials fail and there is at least one, the call
    throws the exhaustion error counting them, each having been sent one
    request. It never touches the cache file and never calls the rewrite
    endpoint. *)
Theorem rotating_first_success_wins (w : World) (o : Options) (query : string)
    (cfg : Json) (st : St) :
  q o = Some query -> query ≠ ""%string -> key_of w o = Some cfg -> truthy cfg = true ->
  let request := search_request query (page_of o) (sort_of o) in
  let fails := fun k => failed (Rotating.attempt (search_endpoint w (request k))) = true in
  (forall failing k rest rs,
     api_keys cfg = failing ++ k :: rest -> Forall fails failing ->
     Rotating.attempt (search_endpoint w (request k)) = Succeeded rs ->
     Rotating.searchAliExpress w o st
     = (Ok rs, mkSt (file st)
                 (sent st ++ ((fun k => SearchCall (request k)) <$> failing ++ [k]))))
  ∧ (api_keys cfg ≠ [] -> Forall fails (api_keys cfg) ->
     exists lastError,
       Rotating.searchAliExpress w o st
       = (Rejected (exhausted_error (List.length (api_keys cfg)) lastError),
          mkSt (file st)
            (sent st ++ ((fun k => SearchCall (request k)) <$> api_keys cfg)))).
Proof.
  intros Hq Hne%str_truthy_true Hk Ht request fails.
  assert (Hrun : Rotating.searchAliExpress w o st
                 = Rotating.try_keys w request (List.length (api_keys cfg)) 0
                     (api_keys cfg) None st).
  { unfold Rotating.searchAliExpress. by rewrite Hq, Hne, Hk, Ht. }
  rewrite Hrun. split.
  - intros failing k rest rs Hkeys Hf Hs. rewrite Hkeys at 2.
    destruct (rotating_try_keys_failing w request (List.length (api_keys cfg))
                failing (k :: rest) Hf 0%nat None st) as (le & -> & _).
    rewrite rotating_try_keys_cons, Hs, logged_app. by rewrite fmap_app.
  - intros Hne' Hf.
    destruct (rotating_try_keys_failing w request (List.length (api_keys cfg))
                (api_keys cfg) [] Hf 0%nat None st) as (le & Hloop & _ & Hsome).
    rewrite app_nil_r in Hloop. rewrite Hloop.
    destruct (Hsome Hne') as [x ->]. by exists x.
Qed.

Lemma rotating_first_success_wins_witness :
  Rotating.searchAliExpress (lamp_world None (Some "bad, good,spare") "" bare_body true)
    lamp_options fresh_state
  = (Ok [],
     mkSt Missing
       [SearchCall (search_request "a nice lamp for my desk" (SNum (Int 1)) "default"
                      (JStr "bad"));
        SearchCall (search_request "a nice lamp for my desk" (SNum (Int 1)) "default"
                      (JStr "good"))]).
Proof.
  destruct (rotating_first_success_wins
              (lamp_world None (Some "bad, good,spare") "" bare_body true)
              lamp_options "a nice lamp for my desk" (JStr "bad, good,spare") fresh_state)
    as [H _].
  - reflexivity.
  - discriminate.
  - reflexivity.
  - reflexivity.
  - apply (H [JStr "bad"] (JStr "good") [JStr "spare"] []).
    + reflexivity.
    + repeat constructor.
    + reflexivity.
Defined.

Lemma attempt_outcomes_witness : attempt (responds 200 lamp_body) = Succeeded lamp_results.
Proof.
  destruct (attempt_outcomes (responds 200 lamp_body)) as [H _].
  apply (H lamp_results).
  exists {| status := 200; text := Ok ""%string; json := Ok lamp_body |}, lamp_body.
  repeat split; try reflexivity. discriminate.
Defined.
